(** * FakeNews front end: the alert feed, the reconnect loop, the contradiction
      badge and the analysis form, embedded from the JavaScript sources

    Sources embedded:
    - [src/frontend/src/context/WebSocketContext.jsx]
    - [src/frontend/src/components/ContradictionBadge.jsx]
    - [src/frontend/src/pages/Analysis.jsx]
    - [src/frontend/src/services/api.js]
    - [src/frontend/src/pages/Settings.jsx], the Navbar and the News page

    Conventions of the embedding.
    - React state ([useState]) is a record that every handler takes and
      returns; a functional update [setX(prev => f prev)] is [f] applied to
      the field.
    - What a handler does to the outside world (toasts, console lines,
      timers, HTTP requests) is appended to a log kept next to the state.
    - A JavaScript object used as a record of fields is a [gmap string value];
      object spread is map union.
    - A handler that can throw returns an [outcome]; a template literal
      throws when a value in one of its holes has no string conversion.
    - Environment readings ([Date.now()], [new Date().toISOString()], whether
      the [WebSocket] constructor throws, what [JSON.parse] yields) and
      [String.prototype.toUpperCase] are arguments.
    - A string is the UTF-8 byte sequence of its text; a number is the
      rational it denotes, and arithmetic on numbers is left to the engine
      (the operands are kept, not a result). *)

From Stdlib Require Import ZArith QArith String Ascii List Lia.
From stdpp Require Import base option list strings gmap.

Local Open Scope Z_scope.
Local Open Scope string_scope.
Local Open Scope list_scope.

(** ** JavaScript values *)

Module JS.

(** A field value of a parsed JSON object (or a React prop).  A nested array
    or object carries its identity [r], by which [===] compares it, and its
    content. *)
#[local] Set Warnings "-register-all".
Inductive value :=
| VUndefined
| VNull
| VBool (b : bool)
| VNum (q : Q)
| VStr (s : string)
| VArr (r : nat) (items : list value)
| VObj (r : nat) (fields : list (string * value)).
#[local] Set Warnings "register-all".

(** What [JSON.parse] returns at top level. *)
Inductive parsed :=
| PNull
| PBool (b : bool)
| PNum (q : Q)
| PStr (s : string)
| PArr (items : list value)
| PObj (fields : gmap string value).

Inductive error :=
| TypeError (what : string)
| SyntaxError (what : string).

(** A computation that returns or throws. *)
Inductive outcome (A : Type) :=
| Normal (a : A)
| Throw (e : error).
Arguments Normal {A} a.
Arguments Throw {A} e.

Definition bind {A B} (m : outcome A) (k : A -> outcome B) : outcome B :=
  match m with
  | Normal a => k a
  | Throw e => Throw e
  end.

(** [try { body } catch (error) { handler(error) }] *)
Definition try_catch {A} (body : outcome A) (handler : error -> A) : A :=
  match body with
  | Normal a => a
  | Throw e => handler e
  end.

(** [a === b] *)
Definition strict_eq (a b : value) : bool :=
  match a, b with
  | VUndefined, VUndefined => true
  | VNull, VNull => true
  | VBool x, VBool y => Bool.eqb x y
  | VNum x, VNum y => Qeq_bool x y
  | VStr x, VStr y => String.eqb x y
  | VArr x _, VArr y _ => Nat.eqb x y
  | VObj x _, VObj y _ => Nat.eqb x y
  | _, _ => false
  end.

(** ToBoolean *)
Definition truthy (v : value) : bool :=
  match v with
  | VUndefined | VNull => false
  | VBool b => b
  | VNum q => negb (Qeq_bool q 0)
  | VStr s => negb (String.eqb s "")
  | VArr _ _ | VObj _ _ => true
  end.

(** Whether ToString returns for a value that came out of [JSON.parse].
    A primitive always has a string.  An object takes [toString] from
    [Object.prototype] unless it has a key [toString] of its own, which is
    then no function, and [valueOf] does not help: ToString throws a
    TypeError.  An array joins the strings of its elements. *)
Fixpoint stringifies (v : value) : bool :=
  match v with
  | VUndefined | VNull | VBool _ | VNum _ | VStr _ => true
  | VArr _ items => forallb stringifies items
  | VObj _ fields =>
      negb (existsb (fun kv => String.eqb (fst kv) "toString") fields)
  end.

(** A template literal: its literal chunks and the values in its holes. *)
Inductive chunk :=
| Lit (s : string)
| Hole (v : value).

Definition chunk_stringifies (c : chunk) : bool :=
  match c with
  | Lit _ => true
  | Hole v => stringifies v
  end.

(** Evaluating a template literal converts each hole to a string. *)
Definition template (chunks : list chunk) : outcome (list chunk) :=
  if forallb chunk_stringifies chunks then Normal chunks
  else Throw (TypeError "Cannot convert object to primitive value").

(** [obj.key] on an object of fields: a missing key reads [undefined]. *)
Definition get (o : gmap string value) (key : string) : value :=
  default VUndefined (o !! key).

(** [data.key] on a parsed top-level value.  Reading a property of [null]
    throws; primitives and arrays have no property of the names read by the
    handlers ([type], [level], ...). *)
Definition prop (d : parsed) (key : string) : outcome value :=
  match d with
  | PNull => Throw (TypeError "Cannot read properties of null")
  | PObj o => Normal (get o key)
  | PBool _ | PNum _ | PStr _ | PArr _ => Normal VUndefined
  end.

(** *** Strings *)

Definition upper_ascii (c : ascii) : ascii :=
  let n := nat_of_ascii c in
  if (Nat.leb 97 n && Nat.leb n 122)%bool then ascii_of_nat (n - 32)%nat else c.

(** [String.prototype.toUpperCase] is an argument of what uses it.  On
    text made of ASCII characters it maps a-z to A-Z and keeps the rest;
    this function is used to run the badge on such text. *)
Fixpoint toUpperCase_ascii (s : string) : string :=
  match s with
  | EmptyString => EmptyString
  | String c r => String (upper_ascii c) (toUpperCase_ascii r)
  end.

(** The white space that [trim] removes is WhiteSpace and LineTerminator:
    U+0009..U+000D and U+0020 (one byte); U+00A0 (two bytes, C2 A0); and
    U+1680, U+2000..U+200A, U+2028, U+2029, U+202F, U+205F, U+3000 and
    U+FEFF (three bytes each). *)
Definition is_space (c : ascii) : bool :=
  let n := nat_of_ascii c in
  ((Nat.leb 9 n && Nat.leb n 13) || Nat.eqb n 32)%bool.

Definition is_space2 (a b : ascii) : bool :=
  (Nat.eqb (nat_of_ascii a) 194 && Nat.eqb (nat_of_ascii b) 160)%bool.

Definition is_space3 (a b c : ascii) : bool :=
  let x := nat_of_ascii a in
  let y := nat_of_ascii b in
  let z := nat_of_ascii c in
  ((Nat.eqb x 225 && Nat.eqb y 154 && Nat.eqb z 128)
   || (Nat.eqb x 226 && Nat.eqb y 128
       && ((Nat.leb 128 z && Nat.leb z 138)
           || Nat.eqb z 168 || Nat.eqb z 169 || Nat.eqb z 175))
   || (Nat.eqb x 226 && Nat.eqb y 129 && Nat.eqb z 159)
   || (Nat.eqb x 227 && Nat.eqb y 128 && Nat.eqb z 128)
   || (Nat.eqb x 239 && Nat.eqb y 187 && Nat.eqb z 191))%bool.

Section Strip.

(** The tests for a one-, two- and three-byte character to strip, given the
    bytes in the order in which the list is read. *)
Variable t1 : ascii -> bool.
Variable t2 : ascii -> ascii -> bool.
Variable t3 : ascii -> ascii -> ascii -> bool.

(** Whether the list starts with a character to strip. *)
Definition leads (l : list ascii) : bool :=
  match l with
  | a :: r =>
      (t1 a ||
       match r with
       | b :: r2 =>
           (t2 a b ||
            match r2 with
            | c :: _ => t3 a b c
            | [] => false
            end)
       | [] => false
       end)
  | [] => false
  end.

(** Drop such characters from the start, as long as there is one. *)
Fixpoint strip (l : list ascii) : list ascii :=
  match l with
  | [] => []
  | a :: r =>
      if t1 a then strip r
      else
        match r with
        | b :: r2 =>
            if t2 a b then strip r2
            else
              match r2 with
              | c :: r3 => if t3 a b c then strip r3 else l
              | [] => l
              end
        | [] => l
        end
  end.

(** A sequence of such characters. *)
Inductive run : list ascii -> Prop :=
| run_nil : run []
| run_1 a r : t1 a = true -> run r -> run (a :: r)
| run_2 a b r : t2 a b = true -> run r -> run (a :: b :: r)
| run_3 a b c r : t3 a b c = true -> run r -> run (a :: b :: c :: r).

End Strip.

Definition trimStart_chars (l : list ascii) : list ascii :=
  strip is_space is_space2 is_space3 l.

(** From the end the bytes of a character are met last byte first. *)
Definition trimEnd_chars (l : list ascii) : list ascii :=
  rev (strip is_space (fun b a => is_space2 a b) (fun c b a => is_space3 a b c)
         (rev l)).

(** [s.trim()] *)
Definition trim (s : string) : string :=
  string_of_list_ascii
    (trimEnd_chars (trimStart_chars (list_ascii_of_string s))).

(** Text made of white space only. *)
Definition white (l : list ascii) : Prop := run is_space is_space2 is_space3 l.

(** Text with no white space character at its start, or at its end. *)
Definition starts_clean (l : list ascii) : Prop :=
  leads is_space is_space2 is_space3 l = false.

Definition ends_clean (l : list ascii) : Prop :=
  leads is_space (fun b a => is_space2 a b) (fun c b a => is_space3 a b c)
    (rev l) = false.

End JS.

(** ** WebSocketContext.jsx *)

Module WebSocketContext.
Import JS.

(** An element of [alerts] is the object built by [handleAlert], a
    [gmap string value]. *)

(** The [useState] cells of [WebSocketProvider]. *)
Record state := mkState {
  socket : option nat;
  isConnected : bool;
  alerts : list (gmap string value)
}.

Inductive toast_kind := ToastError | ToastSuccess | ToastPlain.

Record toast := mkToast {
  toast_kind_of : toast_kind;
  toast_text : list chunk;
  toast_duration : option Z;
  toast_icon : option string
}.

Inductive console_line :=
| ConsoleLog (text : string) (arg : option value)
| ConsoleWarn (text : string)
| ConsoleError (text : string) (err : option error).

(** What a pending [setTimeout] will run. *)
Inductive callback :=
| LogThenConnect   (* () => { console.log('Attempting to reconnect...'); connect(); } *)
| ConnectOnly.     (* connect *)

Record timer := mkTimer {
  timer_callback : callback;
  timer_delay : Z
}.

(** The provider together with what surrounds it: the closure variable
    [ws], the pending timers, the toasts shown and the console. *)
Record world := mkWorld {
  st : state;
  ws : option nat;
  next_socket : nat;
  timers : list timer;
  toasts : list toast;
  console : list console_line
}.

Definition initial_state : state :=
  {| socket := None; isConnected := false; alerts := [] |}.

Definition initial_world : world :=
  {| st := initial_state; ws := None; next_socket := 0%nat;
     timers := []; toasts := []; console := [] |}.

Definition setSocket (s : option nat) (w : world) : world :=
  {| st := {| socket := s; isConnected := isConnected (st w); alerts := alerts (st w) |};
     ws := ws w; next_socket := next_socket w; timers := timers w;
     toasts := toasts w; console := console w |}.

Definition setIsConnected (b : bool) (w : world) : world :=
  {| st := {| socket := socket (st w); isConnected := b; alerts := alerts (st w) |};
     ws := ws w; next_socket := next_socket w; timers := timers w;
     toasts := toasts w; console := console w |}.

(** [setAlerts(prev => f(prev))] *)
Definition setAlerts (f : list (gmap string value) -> list (gmap string value))
    (w : world) : world :=
  {| st := {| socket := socket (st w); isConnected := isConnected (st w);
              alerts := f (alerts (st w)) |};
     ws := ws w; next_socket := next_socket w; timers := timers w;
     toasts := toasts w; console := console w |}.

Definition show_toast (t : toast) (w : world) : world :=
  {| st := st w; ws := ws w; next_socket := next_socket w; timers := timers w;
     toasts := toasts w ++ [t]; console := console w |}.

Definition console_write (c : console_line) (w : world) : world :=
  {| st := st w; ws := ws w; next_socket := next_socket w; timers := timers w;
     toasts := toasts w; console := console w ++ [c] |}.

Definition setTimeout (cb : callback) (delay : Z) (w : world) : world :=
  {| st := st w; ws := ws w; next_socket := next_socket w;
     timers := timers w ++ [mkTimer cb delay];
     toasts := toasts w; console := console w |}.

(** [prev.slice(0, n)] for [0 <= n] *)
Definition slice0 {A} (n : nat) (l : list A) : list A := take n l.

(** [{ id: Date.now(), ...data, timestamp: new Date().toISOString() }]:
    the fields of [data] are copied over the [id] just written, then
    [timestamp] is written over whatever [data] carried. *)
Definition newAlert (data : gmap string value) (now : Z) (iso : string)
    : gmap string value :=
  <["timestamp" := VStr iso]> (data ∪ {["id" := VNum (inject_Z now)]}).

(** The first statement of [handleAlert] evaluates the template
    [`🚨 ${data.level} Alert: ${data.message}`]; it throws, before the list
    is touched, when the level or the message has no string conversion. *)
Definition handleAlert (data : gmap string value) (now : Z) (iso : string)
    (w : world) : outcome world :=
  bind (template [Lit "🚨 "; Hole (get data "level");
                  Lit " Alert: "; Hole (get data "message")])
    (fun alertMessage =>
       let w1 := setAlerts (fun prev => newAlert data now iso :: slice0 49 prev) w in
       if strict_eq (get data "level") (VStr "HIGH") then
         Normal (show_toast (mkToast ToastError alertMessage (Some 6000) None) w1)
       else if strict_eq (get data "level") (VStr "MEDIUM") then
         Normal (show_toast
                   (mkToast ToastPlain alertMessage (Some 4000) (Some "⚠️")) w1)
       else
         Normal (show_toast (mkToast ToastSuccess alertMessage None None) w1)).

(** The template is the argument of [toast]: it is evaluated, and may
    throw, before the toast is shown. *)
Definition handleNewsUpdate (data : gmap string value) (w : world)
    : outcome world :=
  bind (template [Lit "📰 Breaking: "; Hole (get data "headline")])
    (fun text =>
       Normal (show_toast (mkToast ToastPlain text (Some 5000) (Some "📰")) w)).

Definition handleAnalysisComplete (data : gmap string value) (w : world)
    : outcome world :=
  bind (template [Lit "✅ Analysis complete for "; Hole (get data "company")])
    (fun text =>
       Normal (show_toast (mkToast ToastSuccess text (Some 3000) None) w)).

(** The [switch (data.type)].  Only an object can carry a [type] equal to
    one of the three labels, so the three handlers receive its fields. *)
Definition handleWebSocketMessage (data : parsed) (now : Z) (iso : string)
    (w : world) : outcome world :=
  bind (prop data "type") (fun ty =>
    match data with
    | PObj o =>
        if strict_eq ty (VStr "alert") then handleAlert o now iso w
        else if strict_eq ty (VStr "news_update") then handleNewsUpdate o w
        else if strict_eq ty (VStr "analysis_complete") then
          handleAnalysisComplete o w
        else Normal (console_write (ConsoleLog "Unknown message type:" (Some ty)) w)
    | _ => Normal (console_write (ConsoleLog "Unknown message type:" (Some ty)) w)
    end).

Definition clearAlerts (w : world) : world := setAlerts (fun _ => []) w.

(** [alert.id] *)
Definition alert_id (a : gmap string value) : value := get a "id".

(** [prev.filter(alert => alert.id !== alertId)] *)
Definition removeAlert_list (alertId : value) (prev : list (gmap string value))
    : list (gmap string value) :=
  List.filter (fun a => negb (strict_eq (alert_id a) alertId)) prev.

Definition removeAlert (alertId : value) (w : world) : world :=
  setAlerts (removeAlert_list alertId) w.

(** The socket handlers and [connect], inside the effect. *)
Section Effect.

(** [JSON.parse]: [None] is a thrown SyntaxError. *)
Variable JSON_parse : string -> option parsed.

Definition parse (s : string) : outcome parsed :=
  match JSON_parse s with
  | Some d => Normal d
  | None => Throw (SyntaxError "Unexpected token")
  end.

Definition onopen (w : world) : world :=
  let w1 := console_write (ConsoleLog "WebSocket connected" None) w in
  let w2 := setIsConnected true w1 in
  setSocket (ws w2) w2.

(** The [try] block of [ws.onmessage]. *)
Definition onmessage_try (event_data : string) (now : Z) (iso : string)
    (w : world) : outcome world :=
  bind (parse event_data) (fun data => handleWebSocketMessage data now iso w).

Definition onmessage (event_data : string) (now : Z) (iso : string)
    (w : world) : world :=
  try_catch
    (onmessage_try event_data now iso w)
    (fun e => console_write
                (ConsoleError "Failed to parse WebSocket message:" (Some e)) w).

Definition onclose (w : world) : world :=
  let w1 := console_write (ConsoleLog "WebSocket disconnected" None) w in
  let w2 := setIsConnected false w1 in
  let w3 := setSocket None w2 in
  setTimeout LogThenConnect 3000 w3.

Definition onerror (w : world) : world :=
  console_write (ConsoleError "WebSocket error:" None) w.

(** [connect]; [ctor_ok = false] when [new WebSocket(wsUrl)] throws. *)
Definition connect (ctor_ok : bool) (w : world) : world :=
  if ctor_ok then
    {| st := st w; ws := Some (next_socket w); next_socket := S (next_socket w);
       timers := timers w; toasts := toasts w; console := console w |}
  else
    setTimeout ConnectOnly 3000
      (console_write (ConsoleError "WebSocket connection failed:" None) w).

Definition run_callback (cb : callback) (ctor_ok : bool) (w : world) : world :=
  match cb with
  | LogThenConnect =>
      connect ctor_ok (console_write (ConsoleLog "Attempting to reconnect..." None) w)
  | ConnectOnly => connect ctor_ok w
  end.

(** The oldest pending timer fires. *)
Definition fire_timer (ctor_ok : bool) (w : world) : world :=
  match timers w with
  | [] => w
  | t :: rest =>
      run_callback (timer_callback t) ctor_ok
        {| st := st w; ws := ws w; next_socket := next_socket w; timers := rest;
           toasts := toasts w; console := console w |}
  end.

Inductive event :=
| EvOpen
| EvMessage (event_data : string) (now : Z) (iso : string)
| EvClose
| EvError
| EvTimer (ctor_ok : bool)
| EvClearAlerts
| EvRemoveAlert (alertId : value).

Definition step (w : world) (e : event) : world :=
  match e with
  | EvOpen => onopen w
  | EvMessage d now iso => onmessage d now iso w
  | EvClose => onclose w
  | EvError => onerror w
  | EvTimer ok => fire_timer ok w
  | EvClearAlerts => clearAlerts w
  | EvRemoveAlert x => removeAlert x w
  end.

Definition run (w : world) (es : list event) : world := fold_left step es w.

(** The effect body: [connect()] on mount. *)
Definition mount (ctor_ok : bool) : world := connect ctor_ok initial_world.

End Effect.

(** *** Vocabulary of the statements about the provider *)

(** An [alert] message together with the two clock readings taken while it
    is handled. *)
Record alert_event := mkAlertEvent {
  ev_data : gmap string value;
  ev_now : Z;
  ev_iso : string
}.

Definition built (e : alert_event) : gmap string value :=
  newAlert (ev_data e) (ev_now e) (ev_iso e).

(** Whether the template of [handleAlert] can be evaluated. *)
Definition alert_text_ok (data : gmap string value) : bool :=
  (stringifies (get data "level") && stringifies (get data "message"))%bool.

(** The world after [handleAlert] has run under the [try]/[catch] of
    [onmessage]. *)
Definition receive (w : world) (e : alert_event) : world :=
  try_catch (handleAlert (ev_data e) (ev_now e) (ev_iso e) w)
    (fun err => console_write
                  (ConsoleError "Failed to parse WebSocket message:" (Some err)) w).

Definition receive_all (w : world) (es : list alert_event) : world :=
  fold_left receive es w.

(** [data.type], as the switch reads it when it does not throw. *)
Definition msg_type (d : parsed) : value :=
  match d with
  | PObj o => get o "type"
  | _ => VUndefined
  end.

(** A reconnection attempt fails when the constructor throws, or when the
    new socket closes without having opened. *)
Inductive failure := CtorThrows | ClosedBeforeOpen.

Definition failed_attempt (w : world) (f : failure) : world :=
  match f with
  | CtorThrows => fire_timer false w
  | ClosedBeforeOpen => onclose (fire_timer true w)
  end.

(** A connection that was up and has just been closed by the transport. *)
Definition after_close : world := onclose (onopen (mount true)).

Definition after_failures (fs : list failure) : world :=
  fold_left failed_attempt fs after_close.

(** The delay of the pending reconnection timer. *)
Definition next_delay (w : world) : option Z :=
  timer_delay <$> head (timers w).

(** A delay that starts at [base], is multiplied by [factor] after each
    failure, and stops growing at [cap]. *)
Definition exponential_backoff (delay : nat -> option Z) : Prop :=
  exists base factor cap : Z,
    0 < base /\ 1 < factor /\ base < cap /\
    forall n : nat, delay n = Some (Z.min cap (base * factor ^ Z.of_nat n)).

(** One retry is pending, 3000 ms away. *)
Definition one_timer_3000 (w : world) : Prop :=
  exists cb, timers w = [mkTimer cb 3000].

Definition all_3000 (w : world) : Prop :=
  Forall (fun t => timer_delay t = 3000) (timers w).

(** Sample messages. *)
Definition sample_alert (k : Z) : alert_event :=
  {| ev_data := {[ "type" := VStr "alert"; "level" := VStr "HIGH";
                   "message" := VStr "fined" ]};
     ev_now := 1700000000000 + k;
     ev_iso := "2023-11-14T22:13:20.000Z" |}.

Definition sample_alert_with_id (n : Z) : gmap string value :=
  {[ "type" := VStr "alert"; "id" := VNum (inject_Z n) ]}.

(** The message [{"type":"alert","level":"HIGH","message":{"toString":null}}]. *)
Definition unprintable_alert : alert_event :=
  {| ev_data := {[ "type" := VStr "alert"; "level" := VStr "HIGH";
                   "message" := VObj 1 [("toString", VNull)] ]};
     ev_now := 1700000000000;
     ev_iso := "2023-11-14T22:13:20.000Z" |}.

(** Every received alert is put at the head of the list. *)
Definition every_alert_is_stored : Prop :=
  forall (w : world) (e : alert_event),
    head (alerts (st (receive w e))) = Some (built e).

(** Fifty alerts received one millisecond apart. *)
Definition fifty_alerts : world :=
  receive_all initial_world
    (map (fun k => sample_alert (Z.of_nat k)) (seq 0 50)).

(** Alerts handled within one millisecond carry one id. *)
Definition same_ms_share_id : Prop :=
  forall (d1 d2 : gmap string value) (now : Z) (iso1 iso2 : string),
    strict_eq (alert_id (newAlert d1 now iso1)) (alert_id (newAlert d2 now iso2))
    = true.

Definition sample_parse (s : string) : option parsed :=
  if String.eqb s "null" then Some PNull
  else if String.eqb s "true" then Some (PBool true)
  else None.

End WebSocketContext.

(** ** ContradictionBadge.jsx *)

Module ContradictionBadge.
Import JS.

(** The [confidence] prop: a number, [null], or left out (the parameter
    default [confidence = null] then applies). *)
Inductive confidence_prop :=
| ConfOmitted
| ConfNull
| ConfNum (q : Q).

(** What React puts in the third child slot of the badge. *)
Inductive child :=
| ChildNothing              (* null renders nothing *)
| ChildNumber (q : Q)       (* a number is printed, also 0 *)
| ChildPercent (q : Q).     (* <span>({Math.round(q * 100)}%)</span> *)

Record badge := mkBadge {
  className : string;
  icon : string;
  label : string;
  confidence_child : child
}.

(** [confidence && (<span>({Math.round(confidence * 100)}%)</span>)].  The
    span keeps the confidence; the engine computes the number it prints. *)
Definition confidence_slot (confidence : confidence_prop) : child :=
  match confidence with
  | ConfOmitted | ConfNull => ChildNothing
  | ConfNum q => if truthy (VNum q) then ChildPercent q else ChildNumber q
  end.

Definition shows_percentage (b : badge) : bool :=
  match confidence_child b with
  | ChildPercent _ => true
  | _ => false
  end.

Section Component.

(** [String.prototype.toUpperCase] *)
Variable toUpperCase : string -> string.

(** [level?.toUpperCase()]: [undefined] for a nullish level, the upper-cased
    string for a string, and a TypeError for any other value, which has no
    [toUpperCase] method to call. *)
Definition level_upper (level : value) : outcome value :=
  match level with
  | VUndefined | VNull => Normal VUndefined
  | VStr s => Normal (VStr (toUpperCase s))
  | VBool _ | VNum _ | VArr _ _ | VObj _ _ =>
      Throw (TypeError "level?.toUpperCase is not a function")
  end.

Definition getIcon (level : value) : outcome string :=
  bind (level_upper level) (fun u =>
    if strict_eq u (VStr "HIGH") then Normal "🚨"
    else if strict_eq u (VStr "MEDIUM") then Normal "⚠️"
    else if strict_eq u (VStr "LOW") then Normal "🟡"
    else if strict_eq u (VStr "NONE") then Normal "✅"
    else Normal "❓").

Definition getBadgeClass (level : value) : outcome string :=
  bind (level_upper level) (fun u =>
    if strict_eq u (VStr "HIGH") then Normal "badge badge-high"
    else if strict_eq u (VStr "MEDIUM") then Normal "badge badge-medium"
    else if strict_eq u (VStr "LOW") then Normal "badge badge-low"
    else if strict_eq u (VStr "NONE") then Normal "badge badge-none"
    else Normal "badge badge-gray").

(** [level?.toUpperCase() || 'UNKNOWN'] *)
Definition label_of (level : value) : outcome string :=
  bind (level_upper level) (fun u =>
    if truthy u then
      match u with
      | VStr s => Normal s
      | _ => Normal "UNKNOWN"
      end
    else Normal "UNKNOWN").

Definition ContradictionBadge (level : value) (confidence : confidence_prop)
    : outcome badge :=
  bind (getIcon level) (fun i =>
  bind (getBadgeClass level) (fun c =>
  bind (label_of level) (fun l =>
  Normal (mkBadge c i l (confidence_slot confidence))))).

(** The four levels the two switches know. *)
Definition recognized (level : value) : bool :=
  match level with
  | VStr s =>
      let u := toUpperCase s in
      (String.eqb u "HIGH" || String.eqb u "MEDIUM"
       || String.eqb u "LOW" || String.eqb u "NONE")%bool
  | _ => false
  end.

(** Every level outside the four is shown as UNKNOWN on the gray badge. *)
Definition unknown_for_unrecognized : Prop :=
  forall (s : string) (confidence : confidence_prop),
    recognized (VStr s) = false ->
    exists b, ContradictionBadge (VStr s) confidence = Normal b /\
              label b = "UNKNOWN" /\ className b = "badge badge-gray".

End Component.

End ContradictionBadge.

(** ** services/api.js *)

Module Api.

Inductive http_method := GET | POST.

(** The object handed to [analysisMutation.mutate]. *)
Record analysisData := mkAnalysisData {
  company : string;
  query : string
}.

Record request := mkRequest {
  method : http_method;
  url : string;
  body : analysisData
}.

(** [api.post(url, data)] *)
Definition post (u : string) (data : analysisData) : request :=
  {| method := POST; url := u; body := data |}.

(** [apiService.analyzeCompany] *)
Definition analyzeCompany (data : analysisData) : request := post "/analyze" data.

End Api.

(** ** pages/Analysis.jsx *)

Module Analysis.
Import JS.

Inductive toast :=
| ToastError (text : value)
| ToastSuccess (text : string).

(** How a request ends: a response, or a rejection whose
    [error.response?.data?.detail] is the carried value. *)
Inductive settlement :=
| Resolved (data : gmap string value)
| Rejected (detail : value).

(** The component state, the mutation observer of [useMutation], and the
    requests the page has put on the wire. *)
Record page := mkPage {
  selectedCompany : string;
  query : string;
  analysisResult : option (gmap string value);
  isPending : bool;                    (* analysisMutation.isPending *)
  current : option nat;                (* the mutation the observer follows *)
  next_id : nat;
  inflight : list (nat * Api.request); (* sent, not yet settled *)
  sent : list Api.request;             (* every request sent, oldest first *)
  toasts : list toast;
  invalidated : list string            (* companyStats keys invalidated *)
}.

Definition initial : page :=
  {| selectedCompany := ""; query := ""; analysisResult := None;
     isPending := false; current := None; next_id := 0%nat;
     inflight := []; sent := []; toasts := []; invalidated := [] |}.

Definition setSelectedCompany (c : string) (p : page) : page :=
  {| selectedCompany := c; query := query p; analysisResult := analysisResult p;
     isPending := isPending p; current := current p; next_id := next_id p;
     inflight := inflight p; sent := sent p; toasts := toasts p;
     invalidated := invalidated p |}.

Definition setQuery (q : string) (p : page) : page :=
  {| selectedCompany := selectedCompany p; query := q;
     analysisResult := analysisResult p;
     isPending := isPending p; current := current p; next_id := next_id p;
     inflight := inflight p; sent := sent p; toasts := toasts p;
     invalidated := invalidated p |}.

Definition show_toast (t : toast) (p : page) : page :=
  {| selectedCompany := selectedCompany p; query := query p;
     analysisResult := analysisResult p;
     isPending := isPending p; current := current p; next_id := next_id p;
     inflight := inflight p; sent := sent p; toasts := toasts p ++ [t];
     invalidated := invalidated p |}.

(** [analysisMutation.mutate(data)]: the observer turns to a new mutation,
    which is pending, and [mutationFn] sends the request. *)
Definition mutate (data : Api.analysisData) (p : page) : page :=
  let r := Api.analyzeCompany data in
  {| selectedCompany := selectedCompany p; query := query p;
     analysisResult := analysisResult p;
     isPending := true; current := Some (next_id p); next_id := S (next_id p);
     inflight := inflight p ++ [(next_id p, r)]; sent := sent p ++ [r];
     toasts := toasts p; invalidated := invalidated p |}.

Definition handleAnalysis (p : page) : page :=
  if negb (truthy (VStr (selectedCompany p))) then
    show_toast (ToastError (VStr "Please select a company")) p
  else
    mutate {| Api.company := selectedCompany p; Api.query := trim (query p) |} p.

(** [onSuccess] and [onError] of the mutation options. *)
Definition onSuccess (data : gmap string value) (p : page) : page :=
  {| selectedCompany := selectedCompany p; query := query p;
     analysisResult := Some data;
     isPending := isPending p; current := current p; next_id := next_id p;
     inflight := inflight p; sent := sent p;
     toasts := toasts p ++ [ToastSuccess "Analysis completed successfully!"];
     invalidated := invalidated p ++ [selectedCompany p] |}.

Definition onError (detail : value) (p : page) : page :=
  show_toast
    (ToastError (if truthy detail then detail else VStr "Analysis failed")) p.

(** The request with identifier [i] settles: it leaves the wire, the option
    callbacks run, and the observer stops pending if it follows [i]. *)
Definition settle (i : nat) (s : settlement) (p : page) : page :=
  if existsb (fun ir => Nat.eqb (fst ir) i) (inflight p) then
    let p1 :=
      {| selectedCompany := selectedCompany p; query := query p;
         analysisResult := analysisResult p;
         isPending :=
           match current p with
           | Some c => if Nat.eqb c i then false else isPending p
           | None => isPending p
           end;
         current := current p; next_id := next_id p;
         inflight := List.filter (fun ir => negb (Nat.eqb (fst ir) i)) (inflight p);
         sent := sent p; toasts := toasts p; invalidated := invalidated p |} in
    match s with
    | Resolved d => onSuccess d p1
    | Rejected d => onError d p1
    end
  else p.

Definition predefinedQueries : list string :=
  [ "Environmental sustainability and climate commitments";
    "Employee treatment and workplace diversity";
    "Business ethics and transparency";
    "Community involvement and social responsibility";
    "Data privacy and security practices";
    "Supply chain and labor practices" ].

(** [disabled={!selectedCompany || analysisMutation.isPending}] *)
Definition submit_disabled (p : page) : bool :=
  (negb (truthy (VStr (selectedCompany p))) || isPending p)%bool.

(** What reaches the page: form input, a press on the submit button, and
    the settlement of a request. *)
Inductive ui_event :=
| ChangeCompany (v : string)
| ChangeQuery (v : string)
| ClickPredefined (i : nat)
| ClickSubmit
| Settle (i : nat) (s : settlement).

(** A disabled submit button dispatches no submit event. *)
Definition ui_step (p : page) (e : ui_event) : page :=
  match e with
  | ChangeCompany v => setSelectedCompany v p
  | ChangeQuery v => setQuery v p
  | ClickPredefined i =>
      match predefinedQueries !! i with
      | Some q => setQuery q p
      | None => p
      end
  | ClickSubmit => if submit_disabled p then p else handleAnalysis p
  | Settle i s => settle i s p
  end.

Definition ui_run (p : page) (es : list ui_event) : page := fold_left ui_step es p.

(** The requests on the wire that ask for company [c]. *)
Definition inflight_for (c : string) (p : page) : list (nat * Api.request) :=
  List.filter (fun ir => String.eqb (Api.company (Api.body (snd ir))) c) (inflight p).

(** Leaving /analysis and coming back: the router mounts the page afresh,
    with the [useState] cells at their initial values and a new mutation
    observer.  Nothing cancels a request: what is on the wire stays there,
    as do the toasts, which belong to the application. *)
Definition revisit (p : page) : page :=
  {| selectedCompany := ""; query := ""; analysisResult := None;
     isPending := false; current := None; next_id := next_id p;
     inflight := inflight p; sent := sent p; toasts := toasts p;
     invalidated := invalidated p |}.

(** No two requests for one company are on the wire at once, whatever the
    user does in the application. *)
Definition one_request_per_company : Prop :=
  forall (before after : list ui_event) (c : string),
    (length (inflight_for c (ui_run (revisit (ui_run initial before)) after)) <= 1)%nat.

(** The request [handleAnalysis] sends from page [p]. *)
Definition analyze_request (p : page) : Api.request :=
  {| Api.method := Api.POST; Api.url := "/analyze";
     Api.body := {| Api.company := selectedCompany p;
                    Api.query := trim (query p) |} |}.

(** Either nothing is on the wire and the observer is idle, or one request
    is, and the observer is pending on it. *)
Definition wire_matches_observer (p : page) : Prop :=
  (inflight p = [] /\ isPending p = false) \/
  (exists i r, inflight p = [(i, r)] /\ isPending p = true /\ current p = Some i).

Definition company_chosen (r : Api.request) : Prop :=
  Api.company (Api.body r) <> "".

Definition posts_to_analyze (r : Api.request) : Prop :=
  Api.method r = Api.POST /\ Api.url r = "/analyze".

End Analysis.

(** ** WebSocketContext.jsx: [sendMessage] and the vocabulary of traces *)

Module ProviderApi.
Import JS WebSocketContext.

(** What [sendMessage(message)] does: [socket.send(JSON.stringify(message))]
    on the socket of the state, or a console warning. *)
Inductive send_effect (M : Type) :=
| SocketSend (sock : nat) (message : M)
| ConsoleWarned.
Arguments SocketSend {M} sock message.
Arguments ConsoleWarned {M}.

(** [if (socket && isConnected) ... else ...] *)
Definition sendMessage {M : Type} (message : M) (s : state) : send_effect M :=
  match socket s with
  | Some k => if isConnected s then SocketSend k message else ConsoleWarned
  | None => ConsoleWarned
  end.

(** Events of the socket and of the retry timer, as opposed to messages
    and to the two buttons of the alert panel. *)
Definition connection_event (e : event) : bool :=
  match e with
  | EvOpen | EvClose | EvError | EvTimer _ => true
  | EvMessage _ _ _ | EvClearAlerts | EvRemoveAlert _ => false
  end.

Definition not_open (e : event) : bool :=
  match e with
  | EvOpen => false
  | _ => true
  end.

(** A state flagged as disconnected holds no socket. *)
Definition flags_agree (w : world) : Prop :=
  isConnected (st w) = false -> socket (st w) = None.

(** An alert object as the panel needs it: an [id] to key and remove it by,
    and a string [timestamp] to print. *)
Definition stamped (a : gmap string value) : Prop :=
  is_Some (a !! "id") /\ exists iso, a !! "timestamp" = Some (VStr iso).

End ProviderApi.

(** ** Navbar (src/unnamed/part_001) *)

Module Navbar.
Import JS.




(** The [href]s of [navigation], in order. *)
Definition navigation_hrefs : list string := ["/"; "/analysis"; "/news"; "/settings"].

(** [current: location.pathname === href], for each entry. *)
Definition navigation_current (pathname : string) : list bool :=
  map (fun href => String.eqb pathname href) navigation_hrefs.

End Navbar.

(** ** News page (second part of src/frontend/src/services/api.js) *)

Module News.
Import JS.

(** [news?.filter(article => severityFilter === 'ALL' ||
    article.severity === severityFilter) || []]; [None] is [news] still
    undefined. *)
Definition filteredNews (news : option (list (gmap string value)))
    (severityFilter : string) : list (gmap string value) :=
  match news with
  | Some l =>
      List.filter
        (fun article =>
           (String.eqb severityFilter "ALL"
            || strict_eq (get article "severity") (VStr severityFilter))%bool) l
  | None => []
  end.

Definition getSeverityBadgeClass (severity : value) : string :=
  if strict_eq severity (VStr "HIGH") then "badge badge-high"
  else if strict_eq severity (VStr "MEDIUM") then "badge badge-medium"
  else if strict_eq severity (VStr "LOW") then "badge badge-low"
  else "badge badge-gray".

Definition getSeverityColor (severity : value) : string :=
  if strict_eq severity (VStr "HIGH") then "high-severity"
  else if strict_eq severity (VStr "MEDIUM") then "medium-severity"
  else if strict_eq severity (VStr "LOW") then "low-severity"
  else "".

(** The three results of [getTimeDifference]; the number in the template is
    kept as a number, [None] being NaN. *)
Inductive time_label :=
| LessThanOneHour            (* 'Less than 1 hour ago' *)
| HoursAgo (h : Z)           (* `${diffInHours} hours ago` *)
| DaysAgo (d : option Z).    (* `${diffInDays} days ago` *)

(** [getTimeDifference].  [now] and [published] are the two dates in
    milliseconds; [published = None] is an Invalid Date, for which both
    comparisons are false and the day count is NaN. *)
Definition getTimeDifference (now : Z) (published : option Z) : time_label :=
  match published with
  | None => DaysAgo None
  | Some p =>
      let diffInHours := (now - p) / (1000 * 60 * 60) in
      if Z.ltb diffInHours 1 then LessThanOneHour
      else if Z.ltb diffInHours 24 then HoursAgo diffInHours
      else DaysAgo (Some (diffInHours / 24))
  end.

(** *** AddNewsModal *)

Record formData := mkFormData {
  company : string;
  headline : string;
  content : string;
  source : string;
  severity : string
}.

Inductive field := FCompany | FHeadline | FContent | FSource | FSeverity.

Definition read_field (f : field) (d : formData) : string :=
  match f with
  | FCompany => company d
  | FHeadline => headline d
  | FContent => content d
  | FSource => source d
  | FSeverity => severity d
  end.

(** [{...formData, [f]: v}] *)
Definition write_field (f : field) (v : string) (d : formData) : formData :=
  match f with
  | FCompany => mkFormData v (headline d) (content d) (source d) (severity d)
  | FHeadline => mkFormData (company d) v (content d) (source d) (severity d)
  | FContent => mkFormData (company d) (headline d) v (source d) (severity d)
  | FSource => mkFormData (company d) (headline d) (content d) v (severity d)
  | FSeverity => mkFormData (company d) (headline d) (content d) (source d) v
  end.

Record request := mkRequest {
  url : string;
  body : formData
}.

Inductive toast :=
| ToastError (text : value)
| ToastSuccess (text : string).

Record modal := mkModal {
  form : formData;
  isPending : bool;         (* mutation.isPending *)
  sent : list request;      (* POSTs made, oldest first *)
  toasts : list toast;
  closed : bool             (* the parent has taken the modal down *)
}.

Definition initial_form : formData :=
  {| company := ""; headline := ""; content := "";
     source := "Manual Entry"; severity := "MEDIUM" |}.

Definition initial_modal : modal :=
  {| form := initial_form; isPending := false; sent := []; toasts := [];
     closed := false |}.

(** [apiService.addNewsUpdate] *)
Definition addNewsUpdate (data : formData) : request :=
  {| url := "/news"; body := data |}.

Definition setFormData (d : formData) (m : modal) : modal :=
  {| form := d; isPending := isPending m; sent := sent m; toasts := toasts m;
     closed := closed m |}.

Definition handleSubmit (m : modal) : modal :=
  if (negb (truthy (VStr (company (form m))))
      || negb (truthy (VStr (headline (form m))))
      || negb (truthy (VStr (content (form m)))))%bool
  then
    {| form := form m; isPending := isPending m; sent := sent m;
       toasts := toasts m ++ [ToastError (VStr "Please fill in all required fields")];
       closed := closed m |}
  else
    {| form := form m; isPending := true;
       sent := sent m ++ [addNewsUpdate (form m)];
       toasts := toasts m; closed := closed m |}.

(** The mutation settles: [onSuccess] toasts and lets the parent close the
    modal, [onError] toasts the detail or the default text. *)
Definition settle (ok : bool) (detail : value) (m : modal) : modal :=
  if isPending m then
    if ok then
      {| form := form m; isPending := false; sent := sent m;
         toasts := toasts m ++ [ToastSuccess "News added successfully!"];
         closed := true |}
    else
      {| form := form m; isPending := false; sent := sent m;
         toasts := toasts m
                   ++ [ToastError (if truthy detail then detail
                                   else VStr "Failed to add news")];
         closed := closed m |}
  else m.

Inductive modal_event :=
| Change (f : field) (v : string)
| ClickAdd
| Settled (ok : bool) (detail : value).

(** The Add News button is [disabled={mutation.isPending}]. *)
Definition modal_step (m : modal) (e : modal_event) : modal :=
  match e with
  | Change f v => setFormData (write_field f v (form m)) m
  | ClickAdd => if isPending m then m else handleSubmit m
  | Settled ok d => settle ok d m
  end.

Definition modal_run (m : modal) (es : list modal_event) : modal :=
  fold_left modal_step es m.

Definition complete (d : formData) : Prop :=
  company d <> "" /\ headline d <> "" /\ content d <> "".

End News.

(** ** Settings.jsx: SystemStatus *)

Module Settings.
Import JS.

(** [health?.services?.[key] ? 'operational' : 'degraded'].  [health] is
    [None] while there is no data; its [services] is [None] when nullish. *)
Definition service_status (health : option (option (gmap string value)))
    (key : string) : string :=
  match health with
  | Some (Some services) =>
      if truthy (get services key) then "operational" else "degraded"
  | _ => "degraded"
  end.

Definition getStatusClass (status : string) : string :=
  if String.eqb status "operational" then "status-operational"
  else if String.eqb status "degraded" then "status-degraded"
  else if String.eqb status "down" then "status-down"
  else "status-degraded".

(** The keys of the three rows of [services]. *)
Definition service_keys : list string := ["ai_service"; "vector_store"; "database"].

(** Status and class of each row. *)
Definition SystemStatus (health : option (option (gmap string value)))
    : list (string * string) :=
  map (fun key => let s := service_status health key in (s, getStatusClass s))
    service_keys.

End Settings.

(** ** CompanyDetail (second part of src/frontend/src/pages/Analysis.jsx) *)

Module CompanyDetail.
Import JS.

(** The colour of the risk dot, from [stats?.latest_contradiction_level]. *)
Definition risk_colour (level : value) : string :=
  if strict_eq level (VStr "HIGH") then "#dc2626"
  else if strict_eq level (VStr "MEDIUM") then "#ea580c"
  else if strict_eq level (VStr "LOW") then "#ca8a04"
  else "#16a34a".

(** [stats?.latest_contradiction_level || 'NONE'] *)
Definition risk_label (level : value) : value :=
  if truthy level then level else VStr "NONE".

(** What the header shows beside the name. *)
Inductive header_slot :=
| SlotNothing                                       (* nothing is rendered *)
| SlotNumber (q : Q)                                (* the number is printed *)
| SlotBadge (b : outcome ContradictionBadge.badge). (* the badge element *)

(** [stats?.latest_contradiction_level && <ContradictionBadge level=... />]:
    a truthy level gives the badge; a falsy one is itself the child, of
    which React prints a number and nothing else. *)
Definition header_badge (toUpperCase : string -> string) (level : value)
    : header_slot :=
  if truthy level
  then SlotBadge (ContradictionBadge.ContradictionBadge toUpperCase level
                    ContradictionBadge.ConfOmitted)
  else
    match level with
    | VNum q => SlotNumber q
    | _ => SlotNothing
    end.

(** [news?.slice(0, 5)] *)
Definition recent_news {A} (news : list A) : list A := take 5 news.

End CompanyDetail.

(** ** Analysis.jsx: results panel and counting *)

Module AnalysisPanel.
Import JS Analysis.

Definition is_click (e : ui_event) : bool :=
  match e with
  | ClickSubmit => true
  | _ => false
  end.

Definition query_chars (r : Api.request) : list ascii :=
  list_ascii_of_string (Api.query (Api.body r)).

Definition clean_query (r : Api.request) : Prop :=
  starts_clean (query_chars r) /\ ends_clean (query_chars r).

End AnalysisPanel.

(** * Properties *)

(** Case analysis on every condition of a chain of [if]s in the goal. *)
Ltac case_ifs :=
  repeat match goal with
         | |- context [if ?b then _ else _] => destruct b; simpl
         end.

(** ** The alert list is a 50-slot buffer *)

Module AlertFeed.
Import JS WebSocketContext.

Lemma alerts_setAlerts f w : alerts (st (setAlerts f w)) = f (alerts (st w)).
Proof. reflexivity. Qed.

Lemma alerts_show_toast t w : alerts (st (show_toast t w)) = alerts (st w).
Proof. reflexivity. Qed.

Lemma alert_template data :
  template [Lit "🚨 "; Hole (get data "level"); Lit " Alert: ";
            Hole (get data "message")]
  = if alert_text_ok data
    then Normal [Lit "🚨 "; Hole (get data "level"); Lit " Alert: ";
                 Hole (get data "message")]
    else Throw (TypeError "Cannot convert object to primitive value").
Proof.
  unfold template, alert_text_ok. simpl.
  now rewrite Bool.andb_true_r.
Qed.

(** What [handleAlert] has done when it returns. *)
Lemma handleAlert_inv data now iso w w' :
  handleAlert data now iso w = Normal w' ->
  alert_text_ok data = true /\
  alerts (st w') = newAlert data now iso :: take 49 (alerts (st w)) /\
  socket (st w') = socket (st w) /\ isConnected (st w') = isConnected (st w) /\
  ws w' = ws w /\ timers w' = timers w /\ next_socket w' = next_socket w /\
  console w' = console w /\
  exists t, toasts w' = toasts w ++ [t].
Proof.
  unfold handleAlert. rewrite alert_template.
  destruct (alert_text_ok data); simpl; [|discriminate].
  case_ifs; intros [= <-]; repeat split; eauto.
Qed.

Lemma handleAlert_ok data now iso w :
  alert_text_ok data = true -> exists w', handleAlert data now iso w = Normal w'.
Proof.
  intros H. unfold handleAlert. rewrite alert_template, H. simpl.
  case_ifs; eauto.
Qed.

Lemma handleAlert_throws data now iso w :
  alert_text_ok data = false ->
  handleAlert data now iso w
  = Throw (TypeError "Cannot convert object to primitive value").
Proof. intros H. unfold handleAlert. now rewrite alert_template, H. Qed.

Lemma alerts_receive w e :
  alerts (st (receive w e))
  = if alert_text_ok (ev_data e)
    then built e :: take 49 (alerts (st w))
    else alerts (st w).
Proof.
  unfold receive. destruct (alert_text_ok (ev_data e)) eqn:E.
  - destruct (handleAlert_ok _ (ev_now e) (ev_iso e) w E) as [w' H].
    rewrite H. simpl. now apply handleAlert_inv in H as (_ & H & _).
  - now rewrite (handleAlert_throws _ _ _ _ E).
Qed.

Lemma receive_all_snoc w es e :
  receive_all w (es ++ [e]) = receive (receive_all w es) e.
Proof. unfold receive_all. now rewrite fold_left_app. Qed.

(** After any run of alerts the list is the 50 most recent ones that were
    stored, newest first, followed by what was there before. *)
Lemma alerts_receive_all w es :
  (length (alerts (st w)) <= 50)%nat ->
  alerts (st (receive_all w es))
  = take 50 (rev (map built (List.filter (fun e => alert_text_ok (ev_data e)) es))
             ++ alerts (st w)).
Proof.
  intros Hlen. induction es as [|e es IH] using rev_ind.
  - simpl. symmetry. now apply take_ge.
  - rewrite receive_all_snoc, alerts_receive, IH, List.filter_app. simpl.
    destruct (alert_text_ok (ev_data e)).
    + rewrite map_app, rev_app_distr. simpl. now rewrite take_take.
    + now rewrite app_nil_r.
Qed.

Lemma length_removeAlert_list x l :
  (length (removeAlert_list x l) <= length l)%nat.
Proof. unfold removeAlert_list. apply List.filter_length_le. Qed.

Lemma handleWebSocketMessage_bound d now iso w w' :
  handleWebSocketMessage d now iso w = Normal w' ->
  (length (alerts (st w)) <= 50)%nat -> (length (alerts (st w')) <= 50)%nat.
Proof.
  unfold handleWebSocketMessage.
  destruct d as [| | | | |o]; simpl; try discriminate;
    try (intros [= <-]; auto).
  destruct (strict_eq (get o "type") (VStr "alert")).
  { intros H _. apply handleAlert_inv in H as (_ & -> & _).
    simpl. rewrite length_take. lia. }
  unfold handleNewsUpdate, handleAnalysisComplete, template.
  case_ifs; try discriminate; intros [= <-]; auto.
Qed.

Lemma step_keeps_bound parse w e :
  (length (alerts (st w)) <= 50)%nat ->
  (length (alerts (st (step parse w e))) <= 50)%nat.
Proof.
  intros Hw. destruct e; simpl; try exact Hw.
  - unfold onmessage, onmessage_try, JS.try_catch, WebSocketContext.parse.
    destruct (parse event_data) as [d|]; simpl; [|exact Hw].
    destruct (handleWebSocketMessage d now iso w) as [w'|] eqn:E; [|exact Hw].
    now apply (handleWebSocketMessage_bound _ _ _ _ _ E).
  - unfold fire_timer. destruct (timers w) as [|t rest]; [exact Hw|].
    destruct t as [[|] d], ctor_ok; exact Hw.
  - lia.
  - etransitivity; [apply length_removeAlert_list|exact Hw].
Qed.

Lemma run_keeps_bound parse w es :
  (length (alerts (st w)) <= 50)%nat ->
  (length (alerts (st (run parse w es))) <= 50)%nat.
Proof.
  revert w. induction es as [|e es IH]; intros w Hw; simpl; [exact Hw|].
  apply IH. now apply step_keeps_bound.
Qed.

(** C1, as the code has it.  The alert list is a buffer of capacity 50 for
    the alerts whose level and message can be converted to strings.  After
    [handleAlert] on such an alert, from any earlier list: the list holds at
    most 50 alerts; the alert just built is first; behind it come the 49
    most recent earlier alerts in their earlier order; and when the list was
    full, its last (oldest) entry is the one dropped.  An alert whose level
    or message has no string conversion makes [handleAlert] throw before the
    list is touched: the list stays as it was.  After any sequence of alerts
    received since mount the list is the 50 most recent convertible alerts,
    newest first; and no sequence of provider events (messages, closes,
    timers, clearAlerts, removeAlert) makes the list longer than 50. *)
Theorem alerts_bounded_buffer :
  (forall (w : world) (e : alert_event),
      alert_text_ok (ev_data e) = true ->
      let prev := alerts (st w) in
      let next := alerts (st (receive w e)) in
      (exists w', handleAlert (ev_data e) (ev_now e) (ev_iso e) w = Normal w'
                  /\ receive w e = w') /\
      (length next <= 50)%nat /\
      head next = Some (built e) /\
      tail next = take 49 prev /\
      (length prev = 50%nat ->
       exists oldest, prev = tail next ++ [oldest] /\ length next = 50%nat)) /\
  (forall (w : world) (e : alert_event),
      alert_text_ok (ev_data e) = false ->
      (exists err, handleAlert (ev_data e) (ev_now e) (ev_iso e) w = Throw err) /\
      alerts (st (receive w e)) = alerts (st w)) /\
  (forall es : list alert_event,
      alerts (st (receive_all initial_world es))
      = take 50 (rev (map built
                        (List.filter (fun e => alert_text_ok (ev_data e)) es)))) /\
  (forall (parse : string -> option parsed) (ctor_ok : bool) (es : list event),
      (length (alerts (st (run parse (mount ctor_ok) es))) <= 50)%nat).
Proof.
  split; [|split; [|split]].
  - intros w e Hok prev next. subst prev next.
    rewrite alerts_receive, Hok. simpl.
    split.
    { destruct (handleAlert_ok _ (ev_now e) (ev_iso e) w Hok) as [w' H].
      exists w'. split; [exact H|]. unfold receive. now rewrite H. }
    repeat split.
    + rewrite length_take. lia.
    + intros Hfull.
      destruct (alerts (st w)) as [|a l] eqn:E using rev_ind; [discriminate|].
      exists a. rewrite length_app in Hfull. simpl in Hfull.
      rewrite take_app_le by lia. rewrite take_ge by lia.
      split; [reflexivity|]. simpl. lia.
  - intros w e Hbad. split.
    + eexists. now apply handleAlert_throws.
    + now rewrite alerts_receive, Hbad.
  - intros es. rewrite alerts_receive_all by (simpl; lia).
    simpl. now rewrite app_nil_r.
  - intros parse ok es. apply run_keeps_bound.
    destruct ok; simpl; lia.
Qed.

(** At a full list of fifty, one more alert drops the oldest; an alert with
    an unprintable message leaves the fifty as they are. *)
Lemma alerts_bounded_buffer_witness :
  (exists oldest,
    alerts (st fifty_alerts)
    = tail (alerts (st (receive fifty_alerts (sample_alert 50)))) ++ [oldest]
    /\ length (alerts (st (receive fifty_alerts (sample_alert 50)))) = 50%nat) /\
  alerts (st (receive fifty_alerts unprintable_alert)) = alerts (st fifty_alerts).
Proof.
  split.
  - apply (proj1 alerts_bounded_buffer fifty_alerts (sample_alert 50)).
    + reflexivity.
    + vm_compute. reflexivity.
  - apply (proj1 (proj2 alerts_bounded_buffer) fifty_alerts unprintable_alert).
    reflexivity.
Defined.

(** C1, as stated, fails for an alert whose message cannot be converted to
    a string: [{"type":"alert","level":"HIGH","message":{"toString":null}}]
    makes [handleAlert] throw on its first line, and on an empty list the
    alert is not first afterwards: the list is still empty. *)
Lemma unprintable_alert_not_stored :
  handleAlert (ev_data unprintable_alert) (ev_now unprintable_alert)
    (ev_iso unprintable_alert) initial_world
  = Throw (TypeError "Cannot convert object to primitive value") /\
  alerts (st (receive initial_world unprintable_alert)) = [] /\
  ~ every_alert_is_stored.
Proof.
  split; [reflexivity|]. split; [reflexivity|].
  intros H. specialize (H initial_world unprintable_alert). discriminate.
Qed.

End AlertFeed.

(** ** Reconnection *)

Module Reconnect.
Import JS WebSocketContext.

Lemma after_close_one_timer : one_timer_3000 after_close.
Proof. exists LogThenConnect. reflexivity. Qed.

Lemma failed_attempt_one_timer w f :
  one_timer_3000 w -> one_timer_3000 (failed_attempt w f).
Proof.
  intros [cb Hw]. destruct f; unfold failed_attempt, fire_timer; rewrite Hw.
  - exists ConnectOnly. destruct cb; reflexivity.
  - exists LogThenConnect. destruct cb; reflexivity.
Qed.

Lemma after_failures_one_timer fs : one_timer_3000 (after_failures fs).
Proof.
  unfold after_failures. generalize after_close_one_timer.
  generalize after_close as w.
  induction fs as [|f fs IH]; intros w Hw; simpl; [exact Hw|].
  apply IH. now apply failed_attempt_one_timer.
Qed.

Lemma connect_all_3000 ok w : all_3000 w -> all_3000 (connect ok w).
Proof.
  unfold all_3000. intros H. destruct ok; simpl; [exact H|].
  apply Forall_app. split; [exact H|]. now constructor.
Qed.

Lemma handleWebSocketMessage_timers d now iso w w' :
  handleWebSocketMessage d now iso w = Normal w' -> timers w' = timers w.
Proof.
  unfold handleWebSocketMessage. destruct d as [| | | | |o]; simpl;
    try discriminate; try (intros [= <-]; reflexivity).
  destruct (strict_eq (get o "type") (VStr "alert")).
  { intros H. now apply AlertFeed.handleAlert_inv in H as (_ & _ & _ & _ & _ & H & _). }
  unfold handleNewsUpdate, handleAnalysisComplete, template.
  case_ifs; try discriminate; intros [= <-]; reflexivity.
Qed.

Lemma step_all_3000 parse w e : all_3000 w -> all_3000 (step parse w e).
Proof.
  intros H. destruct e; simpl; try exact H.
  - unfold onmessage, onmessage_try, try_catch, WebSocketContext.parse.
    destruct (parse event_data) as [d|]; simpl; [|exact H].
    destruct (handleWebSocketMessage d now iso w) as [w'|] eqn:E; [|exact H].
    unfold all_3000. now rewrite (handleWebSocketMessage_timers _ _ _ _ _ E).
  - unfold all_3000, onclose. simpl. apply Forall_app. split; [exact H|].
    now constructor.
  - unfold fire_timer. destruct (timers w) as [|t rest] eqn:E; [exact H|].
    unfold all_3000 in H. rewrite E in H. apply Forall_cons in H as [_ H].
    destruct (timer_callback t); simpl; apply connect_all_3000; exact H.
Qed.

Lemma run_all_3000 parse w es : all_3000 w -> all_3000 (run parse w es).
Proof.
  revert w. induction es as [|e es IH]; intros w H; simpl; [exact H|].
  apply IH. now apply step_all_3000.
Qed.

(** C2, as the code has it.  A transport-level close schedules one
    reconnection attempt 3000 ms later; after every sequence of consecutive
    failed attempts (the constructor throws, or the new socket closes before
    it opens) exactly one retry is pending and its delay is again 3000 ms;
    and no provider event ever schedules a timer with another delay. *)
Theorem reconnect_delay_is_constant :
  (forall w : world,
      timers (onclose w) = timers w ++ [mkTimer LogThenConnect 3000]) /\
  (forall fs : list failure,
      next_delay (after_failures fs) = Some 3000 /\
      length (timers (after_failures fs)) = 1%nat) /\
  (forall (parse : string -> option parsed) (ctor_ok : bool) (es : list event),
      Forall (fun t => timer_delay t = 3000)
        (timers (run parse (mount ctor_ok) es))).
Proof.
  split; [|split].
  - reflexivity.
  - intros fs. destruct (after_failures_one_timer fs) as [cb H].
    unfold next_delay. rewrite H. split; reflexivity.
  - intros parse ok es. apply run_all_3000.
    destruct ok; unfold all_3000; simpl; [constructor|].
    repeat constructor.
Qed.

(** C2, as stated, fails: the delays before the attempts that follow 0, 1,
    2, ... consecutive failures are not an exponential sequence with a cap
    above its start; the delay after one failure equals the delay after
    none. *)
Lemma reconnect_delay_not_exponential :
  next_delay (after_failures []) = Some 3000 /\
  next_delay (after_failures [ClosedBeforeOpen]) = Some 3000 /\
  next_delay (after_failures [ClosedBeforeOpen; ClosedBeforeOpen]) = Some 3000 /\
  ~ exponential_backoff
      (fun n => next_delay (after_failures (repeat ClosedBeforeOpen n))).
Proof.
  repeat split.
  intros (base & factor & cap & Hb & Hf & Hc & H).
  pose proof (H 0%nat) as H0. pose proof (H 1%nat) as H1.
  change (Some 3000 = Some (Z.min cap (base * factor ^ 0))) in H0.
  change (Some 3000 = Some (Z.min cap (base * factor ^ 1))) in H1.
  injection H0 as H0. injection H1 as H1.
  rewrite Z.pow_0_r in H0. rewrite Z.pow_1_r in H1.
  assert (base < base * factor) by nia.
  lia.
Qed.

End Reconnect.

(** ** Message dispatch *)

Module Dispatch.
Import JS WebSocketContext.

Lemma strict_eq_str v s : strict_eq v (VStr s) = true <-> v = VStr s.
Proof.
  destruct v; simpl; split; try discriminate.
  - intros H. apply String.eqb_eq in H. now subst.
  - intros [= ->]. apply String.eqb_refl.
Qed.

Lemma strict_eq_str_false v s : v <> VStr s -> strict_eq v (VStr s) = false.
Proof.
  intros H. destruct (strict_eq v (VStr s)) eqn:E; [|reflexivity].
  apply strict_eq_str in E. contradiction.
Qed.

Lemma msg_type_string d s :
  msg_type d = VStr s -> exists o, d = PObj o /\ get o "type" = VStr s.
Proof. destruct d; simpl; try discriminate. eauto. Qed.

(** C5. The switch of [handleWebSocketMessage] has three labelled cases.
    With [type] equal to 'alert' the message goes to [handleAlert]: when
    that returns, a new alert is at the head of the list; it throws, with
    nothing changed, only when the level or the message has no string
    conversion.  With 'news_update' or 'analysis_complete' the handler shows
    exactly one toast and leaves the provider state (socket, isConnected,
    alerts), the console, the timers and the socket variable as they were,
    or it throws, with nothing changed, because the headline or the company
    has no string conversion.  With any other [type] (absent included) the
    provider state, the toasts, the timers and the socket variable stay as
    they were; the handler then throws only for the JSON value null.  So
    under [onmessage] a message of any type but 'alert' leaves the provider
    state as it was. *)
Theorem message_dispatch (data : parsed) (now : Z) (iso : string) (w : world) :
  (msg_type data = VStr "alert" ->
     exists o, data = PObj o /\
       handleWebSocketMessage data now iso w = handleAlert o now iso w /\
       match handleAlert o now iso w with
       | Normal w' =>
           alerts (st w') = newAlert o now iso :: take 49 (alerts (st w))
       | Throw _ => alert_text_ok o = false
       end) /\
  (msg_type data = VStr "news_update" \/ msg_type data = VStr "analysis_complete" ->
     match handleWebSocketMessage data now iso w with
     | Normal w' =>
         st w' = st w /\ (exists t, toasts w' = toasts w ++ [t]) /\
         console w' = console w /\ timers w' = timers w /\ ws w' = ws w
     | Throw _ =>
         exists o, data = PObj o /\
           (stringifies (get o "headline") = false \/
            stringifies (get o "company") = false)
     end) /\
  (msg_type data <> VStr "alert" ->
   msg_type data <> VStr "news_update" ->
   msg_type data <> VStr "analysis_complete" ->
     match handleWebSocketMessage data now iso w with
     | Normal w' =>
         st w' = st w /\ toasts w' = toasts w /\
         timers w' = timers w /\ ws w' = ws w
     | Throw _ => data = PNull
     end) /\
  (forall (parse : string -> option parsed) (event_data : string),
     parse event_data = Some data ->
     msg_type data <> VStr "alert" ->
     st (onmessage parse event_data now iso w) = st w).
Proof.
  assert (Hnews : msg_type data = VStr "news_update" \/
                  msg_type data = VStr "analysis_complete" ->
     match handleWebSocketMessage data now iso w with
     | Normal w' =>
         st w' = st w /\ (exists t, toasts w' = toasts w ++ [t]) /\
         console w' = console w /\ timers w' = timers w /\ ws w' = ws w
     | Throw _ =>
         exists o, data = PObj o /\
           (stringifies (get o "headline") = false \/
            stringifies (get o "company") = false)
     end).
  { intros [H|H]; apply msg_type_string in H as (o & -> & Ho);
      unfold handleWebSocketMessage; simpl; rewrite Ho; simpl;
      unfold handleNewsUpdate, handleAnalysisComplete, template; simpl.
    - destruct (stringifies (get o "headline")) eqn:E; simpl.
      + repeat split; eauto.
      + exists o. auto.
    - destruct (stringifies (get o "company")) eqn:E; simpl.
      + repeat split; eauto.
      + exists o. auto. }
  assert (Hother : msg_type data <> VStr "alert" ->
     msg_type data <> VStr "news_update" ->
     msg_type data <> VStr "analysis_complete" ->
     match handleWebSocketMessage data now iso w with
     | Normal w' =>
         st w' = st w /\ toasts w' = toasts w /\
         timers w' = timers w /\ ws w' = ws w
     | Throw _ => data = PNull
     end).
  { intros H1 H2 H3. destruct data; simpl in *; try (repeat split; reflexivity).
    unfold handleWebSocketMessage. simpl.
    rewrite (strict_eq_str_false _ _ H1), (strict_eq_str_false _ _ H2),
      (strict_eq_str_false _ _ H3).
    repeat split. }
  split; [|split; [exact Hnews|split; [exact Hother|]]].
  - intros H. apply msg_type_string in H as (o & -> & Ho).
    exists o. split; [reflexivity|]. split.
    + unfold handleWebSocketMessage. simpl. now rewrite Ho.
    + destruct (handleAlert o now iso w) as [w'|e] eqn:E.
      * now apply AlertFeed.handleAlert_inv in E as (_ & E & _).
      * destruct (alert_text_ok o) eqn:Hok; [|reflexivity].
        destruct (AlertFeed.handleAlert_ok o now iso w Hok) as [w' H'].
        congruence.
  - intros parse event_data Hp Hna.
    unfold onmessage, onmessage_try, try_catch, WebSocketContext.parse.
    rewrite Hp. simpl.
    destruct (handleWebSocketMessage data now iso w) as [w'|e] eqn:E;
      [|reflexivity].
    destruct (strict_eq (msg_type data) (VStr "news_update")) eqn:E1.
    { apply strict_eq_str in E1.
      now destruct (Hnews (or_introl E1)) as (H & _). }
    destruct (strict_eq (msg_type data) (VStr "analysis_complete")) eqn:E2.
    { apply strict_eq_str in E2.
      now destruct (Hnews (or_intror E2)) as (H & _). }
    assert (N1 : msg_type data <> VStr "news_update")
      by (intros X; apply strict_eq_str in X; congruence).
    assert (N2 : msg_type data <> VStr "analysis_complete")
      by (intros X; apply strict_eq_str in X; congruence).
    now destruct (Hother Hna N1 N2) as (H & _).
Qed.

(** An alert is stored; a news update only adds a toast; an unknown type
    leaves everything but the console alone. *)
Lemma message_dispatch_witness :
  (exists o, PObj (ev_data (sample_alert 0)) = PObj o /\
      handleWebSocketMessage (PObj (ev_data (sample_alert 0))) 0 "" initial_world
      = handleAlert o 0 "" initial_world /\
      match handleAlert o 0 "" initial_world with
      | Normal w' =>
          alerts (st w') = newAlert o 0 "" :: take 49 (alerts (st initial_world))
      | Throw _ => alert_text_ok o = false
      end) /\
  match handleWebSocketMessage
          (PObj {[ "type" := VStr "news_update"; "headline" := VStr "fined" ]})
          0 "" fifty_alerts with
  | Normal w' =>
      st w' = st fifty_alerts /\
      (exists t, toasts w' = toasts fifty_alerts ++ [t]) /\
      console w' = console fifty_alerts /\ timers w' = timers fifty_alerts /\
      ws w' = ws fifty_alerts
  | Throw _ =>
      exists o,
        PObj {[ "type" := VStr "news_update"; "headline" := VStr "fined" ]}
        = PObj o /\
        (stringifies (get o "headline") = false \/
         stringifies (get o "company") = false)
  end /\
  match handleWebSocketMessage (PObj {[ "type" := VStr "ping" ]}) 0 "" fifty_alerts with
  | Normal w' =>
      st w' = st fifty_alerts /\ toasts w' = toasts fifty_alerts /\
      timers w' = timers fifty_alerts /\ ws w' = ws fifty_alerts
  | Throw _ => PObj {[ "type" := VStr "ping" ]} = PNull
  end /\
  st (onmessage (fun _ => Some (PObj {[ "type" := VStr "ping" ]})) "x" 0 ""
        fifty_alerts)
  = st fifty_alerts.
Proof.
  split; [|split; [|split]].
  - apply (proj1 (message_dispatch (PObj (ev_data (sample_alert 0))) 0 ""
             initial_world)).
    vm_compute. reflexivity.
  - apply (proj1 (proj2 (message_dispatch
             (PObj {[ "type" := VStr "news_update"; "headline" := VStr "fined" ]})
             0 "" fifty_alerts))).
    left. vm_compute. reflexivity.
  - apply (proj1 (proj2 (proj2 (message_dispatch
             (PObj {[ "type" := VStr "ping" ]}) 0 "" fifty_alerts))));
      vm_compute; discriminate.
  - apply (proj2 (proj2 (proj2 (message_dispatch
             (PObj {[ "type" := VStr "ping" ]}) 0 "" fifty_alerts)))
             (fun _ => Some (PObj {[ "type" := VStr "ping" ]})) "x").
    + reflexivity.
    + vm_compute. discriminate.
Defined.

(** C9. When [JSON.parse] throws on the data of a message, the [try] block
    of [onmessage] ends with that SyntaxError, the [catch] clause writes one
    console error, and the handler returns: the alert list, the connection
    flag, the socket state, the socket variable, the toasts and the timers
    are what they were.  [onmessage] is the [try]/[catch] as a whole, whose
    handler is a console write, so nothing thrown inside leaves it. *)
Theorem onmessage_invalid_json (parse : string -> option parsed)
    (event_data : string) (now : Z) (iso : string) (w : world) :
  parse event_data = None ->
  let w' := onmessage parse event_data now iso w in
  (exists e, onmessage_try parse event_data now iso w = Throw e /\
     w' = console_write
            (ConsoleError "Failed to parse WebSocket message:" (Some e)) w) /\
  alerts (st w') = alerts (st w) /\
  isConnected (st w') = isConnected (st w) /\
  socket (st w') = socket (st w) /\
  ws w' = ws w /\ toasts w' = toasts w /\ timers w' = timers w /\
  exists line, console w' = console w ++ [line].
Proof.
  intros H. unfold onmessage, onmessage_try, WebSocketContext.parse.
  rewrite H. simpl. repeat split; eauto.
Qed.

Lemma onmessage_invalid_json_witness :
  let w' := onmessage sample_parse "not json" 0 "" fifty_alerts in
  (exists e, onmessage_try sample_parse "not json" 0 "" fifty_alerts = Throw e /\
     w' = console_write
            (ConsoleError "Failed to parse WebSocket message:" (Some e))
            fifty_alerts) /\
  alerts (st w') = alerts (st fifty_alerts) /\
  isConnected (st w') = isConnected (st fifty_alerts) /\
  socket (st w') = socket (st fifty_alerts) /\
  ws w' = ws fifty_alerts /\ toasts w' = toasts fifty_alerts /\
  timers w' = timers fifty_alerts /\
  exists line, console w' = console fifty_alerts ++ [line].
Proof.
  apply (onmessage_invalid_json sample_parse "not json" 0 "" fifty_alerts).
  reflexivity.
Defined.

End Dispatch.

(** ** Removing alerts *)

Module AlertRemoval.
Import JS WebSocketContext.

Lemma removeAlert_list_twice x l :
  removeAlert_list x (removeAlert_list x l) = removeAlert_list x l.
Proof.
  unfold removeAlert_list. induction l as [|a l IH]; simpl; [reflexivity|].
  destruct (negb (strict_eq (alert_id a) x)) eqn:E; simpl.
  - rewrite E. now f_equal.
  - exact IH.
Qed.

Lemma removeAlert_list_absent x l :
  (forall a, In a l -> strict_eq (alert_id a) x = false) ->
  removeAlert_list x l = l.
Proof.
  unfold removeAlert_list. induction l as [|a l IH]; intros H; simpl; [reflexivity|].
  rewrite (H a) by now left. simpl. f_equal. apply IH.
  intros b Hb. apply H. now right.
Qed.

Lemma alert_id_newAlert d now iso :
  alert_id (newAlert d now iso) = default (VNum (inject_Z now)) (d !! "id").
Proof.
  unfold alert_id, get, newAlert.
  rewrite lookup_insert_ne by discriminate.
  destruct (d !! "id") as [v|] eqn:E.
  - now rewrite (lookup_union_Some_l _ _ _ _ E).
  - rewrite lookup_union_r by exact E. now rewrite lookup_singleton_eq.
Qed.

Lemma strict_eq_num_refl q : strict_eq (VNum q) (VNum q) = true.
Proof. simpl. apply Qeq_bool_iff. reflexivity. Qed.

(** C8, as the code has it.  [removeAlert] keeps exactly the alerts whose id
    is not strictly equal to its argument, in their order; applying it twice
    is applying it once; with no alert of that id the list is returned as it
    was.  The id of an alert is the id carried by the message when it has
    one, and the clock reading otherwise.  Two alerts whose messages carry no
    id, that [handleAlert] accepts one after the other at the same clock
    reading, both get that reading as id, and one [removeAlert] of it
    removes both. *)
Theorem removeAlert_idempotent_shared_clock_ids :
  (forall (x : value) (w : world),
      removeAlert x (removeAlert x w) = removeAlert x w) /\
  (forall (x : value) (l : list (gmap string value)) (a : gmap string value),
      In a (removeAlert_list x l) <-> In a l /\ strict_eq (alert_id a) x = false) /\
  (forall (x : value) (l : list (gmap string value)),
      (forall a, In a l -> strict_eq (alert_id a) x = false) ->
      removeAlert_list x l = l) /\
  (forall (d : gmap string value) (now : Z) (iso : string),
      alert_id (newAlert d now iso) = default (VNum (inject_Z now)) (d !! "id")) /\
  (forall (d1 d2 : gmap string value) (now : Z) (iso1 iso2 : string)
          (w w1 w2 : world),
      d1 !! "id" = None -> d2 !! "id" = None ->
      handleAlert d1 now iso1 w = Normal w1 ->
      handleAlert d2 now iso2 w1 = Normal w2 ->
      alert_id (newAlert d1 now iso1) = VNum (inject_Z now) /\
      alert_id (newAlert d2 now iso2) = VNum (inject_Z now) /\
      alerts (st w2)
      = newAlert d2 now iso2 :: newAlert d1 now iso1 :: take 48 (alerts (st w)) /\
      alerts (st (removeAlert (VNum (inject_Z now)) w2))
      = removeAlert_list (VNum (inject_Z now)) (take 48 (alerts (st w)))).
Proof.
  split; [|split; [|split; [|split]]].
  - intros x w. unfold removeAlert, setAlerts. simpl.
    now rewrite removeAlert_list_twice.
  - intros x l a. unfold removeAlert_list. rewrite filter_In.
    now rewrite Bool.negb_true_iff.
  - apply removeAlert_list_absent.
  - apply alert_id_newAlert.
  - intros d1 d2 now iso1 iso2 w w1 w2 H1 H2 Hw1 Hw2.
    assert (E1 : alert_id (newAlert d1 now iso1) = VNum (inject_Z now))
      by now rewrite alert_id_newAlert, H1.
    assert (E2 : alert_id (newAlert d2 now iso2) = VNum (inject_Z now))
      by now rewrite alert_id_newAlert, H2.
    apply AlertFeed.handleAlert_inv in Hw1 as (_ & A1 & _).
    apply AlertFeed.handleAlert_inv in Hw2 as (_ & A2 & _).
    assert (E : alerts (st w2)
                = newAlert d2 now iso2 :: newAlert d1 now iso1
                    :: take 48 (alerts (st w))).
    { rewrite A2, A1. simpl. now rewrite take_take. }
    repeat split; try assumption.
    unfold removeAlert. rewrite AlertFeed.alerts_setAlerts, E.
    unfold removeAlert_list at 1. simpl.
    now rewrite E1, E2, strict_eq_num_refl.
Qed.

Lemma removeAlert_idempotent_shared_clock_ids_witness :
  let d := ev_data (sample_alert 0) in
  let w1 := receive fifty_alerts (mkAlertEvent d 1700000000000 "a") in
  let w2 := receive w1 (mkAlertEvent d 1700000000000 "b") in
  (alert_id (newAlert d 1700000000000 "a") = VNum (inject_Z 1700000000000) /\
   alert_id (newAlert d 1700000000000 "b") = VNum (inject_Z 1700000000000) /\
   alerts (st w2)
   = newAlert d 1700000000000 "b" :: newAlert d 1700000000000 "a"
       :: take 48 (alerts (st fifty_alerts)) /\
   alerts (st (removeAlert (VNum (inject_Z 1700000000000)) w2))
   = removeAlert_list (VNum (inject_Z 1700000000000))
       (take 48 (alerts (st fifty_alerts)))) /\
  removeAlert_list (VNum 7) [built (sample_alert 0)] = [built (sample_alert 0)].
Proof.
  split.
  - apply (proj2 (proj2 (proj2 (proj2 removeAlert_idempotent_shared_clock_ids)))
             (ev_data (sample_alert 0)) (ev_data (sample_alert 0))
             1700000000000 "a" "b" fifty_alerts
             (receive fifty_alerts
                (mkAlertEvent (ev_data (sample_alert 0)) 1700000000000 "a")));
      vm_compute; reflexivity.
  - apply (proj1 (proj2 (proj2 removeAlert_idempotent_shared_clock_ids))
             (VNum 7) [built (sample_alert 0)]).
    intros a [<-|[]]. vm_compute. reflexivity.
Defined.

(** C8, as stated, fails where it says that alerts of one millisecond share
    an id: two messages that carry the ids 1 and 2 and are handled at the
    same clock reading give alerts with the ids 2 and 1; removing id 2
    leaves the other alert, and removing the clock reading removes none. *)
Lemma same_millisecond_ids_differ :
  let now := 1700000000000 in
  let w2 := receive (receive initial_world
                       (mkAlertEvent (sample_alert_with_id 1) now "a"))
              (mkAlertEvent (sample_alert_with_id 2) now "b") in
  map alert_id (alerts (st w2)) = [VNum (inject_Z 2); VNum (inject_Z 1)] /\
  map alert_id (alerts (st (removeAlert (VNum (inject_Z 2)) w2)))
  = [VNum (inject_Z 1)] /\
  removeAlert (VNum (inject_Z now)) w2 = w2 /\
  ~ same_ms_share_id.
Proof.
  repeat split.
  intros H.
  specialize (H (sample_alert_with_id 1) (sample_alert_with_id 2) 1700000000000 "a" "b").
  vm_compute in H. discriminate.
Qed.

End AlertRemoval.

(** ** The contradiction badge *)

Module Badge.
Import JS ContradictionBadge.

Section Upper.

Variable up : string -> string.

Lemma recognized_false s :
  recognized up (VStr s) = false ->
  String.eqb (up s) "HIGH" = false /\
  String.eqb (up s) "MEDIUM" = false /\
  String.eqb (up s) "LOW" = false /\
  String.eqb (up s) "NONE" = false.
Proof.
  simpl. intros H.
  apply Bool.orb_false_iff in H as [H H4].
  apply Bool.orb_false_iff in H as [H H3].
  apply Bool.orb_false_iff in H as [H1 H2].
  auto.
Qed.

Lemma badge_slot level confidence b :
  ContradictionBadge up level confidence = Normal b ->
  confidence_child b = confidence_slot confidence.
Proof.
  unfold ContradictionBadge.
  destruct (getIcon up level); simpl; [|discriminate].
  destruct (getBadgeClass up level); simpl; [|discriminate].
  destruct (label_of up level); simpl; [|discriminate].
  now intros [= <-].
Qed.

Lemma badge_absent level confidence :
  level = VNull \/ level = VUndefined \/ (exists s, level = VStr s /\ up s = "") ->
  ContradictionBadge up level confidence
  = Normal (mkBadge "badge badge-gray" "❓" "UNKNOWN" (confidence_slot confidence)).
Proof.
  intros [->|[->|(s & -> & E)]]; try reflexivity.
  unfold ContradictionBadge, getIcon, getBadgeClass, label_of. simpl.
  now rewrite E.
Qed.

Lemma badge_unrecognized s confidence :
  recognized up (VStr s) = false -> up s <> "" ->
  ContradictionBadge up (VStr s) confidence
  = Normal (mkBadge "badge badge-gray" "❓" (up s) (confidence_slot confidence)).
Proof.
  intros H Hs. apply recognized_false in H as (H1 & H2 & H3 & H4).
  unfold ContradictionBadge, getIcon, getBadgeClass, label_of. simpl.
  rewrite H1, H2, H3, H4. simpl.
  destruct (String.eqb (up s) "") eqn:E; [|reflexivity].
  apply String.eqb_eq in E. contradiction.
Qed.

Lemma badge_string_renders s confidence :
  exists b, ContradictionBadge up (VStr s) confidence = Normal b.
Proof.
  unfold ContradictionBadge, getIcon, getBadgeClass, label_of. simpl.
  case_ifs; eauto.
Qed.

(** A level that upper-cases to 'CRITICAL' shows that text. *)
Lemma critical_keeps_its_text :
  up "critical" = "CRITICAL" ->
  ContradictionBadge up (VStr "critical") ConfNull
  = Normal (mkBadge "badge badge-gray" "❓" "CRITICAL" ChildNothing) /\
  ~ unknown_for_unrecognized up.
Proof.
  intros E.
  assert (R : recognized up (VStr "critical") = false) by (simpl; now rewrite E).
  assert (B : ContradictionBadge up (VStr "critical") ConfNull
              = Normal (mkBadge "badge badge-gray" "❓" "CRITICAL" ChildNothing)).
  { rewrite (badge_unrecognized _ _ R) by (rewrite E; discriminate).
    now rewrite E. }
  split; [exact B|].
  intros H. destruct (H "critical" ConfNull R) as (b & Hb & Hl & _).
  rewrite B in Hb. injection Hb as <-. discriminate.
Qed.

End Upper.

Lemma slot_percent confidence :
  (exists q, confidence_slot confidence = ChildPercent q) <->
  exists q, confidence = ConfNum q /\ ~ (q == 0)%Q.
Proof.
  destruct confidence as [| |q]; simpl.
  - split; [intros [? [=]]|intros (? & [=] & _)].
  - split; [intros [? [=]]|intros (? & [=] & _)].
  - destruct (Qeq_bool q 0) eqn:E; simpl.
    + apply Qeq_bool_iff in E. split; [intros [? [=]]|].
      intros (q' & [= <-] & Hq). contradiction.
    + split; [|eauto]. intros _. exists q. split; [reflexivity|].
      intros Hq. apply Qeq_bool_iff in Hq. congruence.
Qed.

(** C10, as the code has it, for [String.prototype.toUpperCase] as [up].
    The badge shows a percentage exactly when [confidence] is a number
    other than 0; with [confidence] 0, null or left out it shows none.  A
    level that is null or undefined, or a string whose upper-case form is
    empty (the empty string), gives the text 'UNKNOWN' on the gray badge.
    Any other string outside the four levels gives the gray badge too, with
    that string in upper case as its text.  For every string level the badge
    renders. *)
Theorem badge_confidence_and_fallback :
  (forall (up : string -> string) (level : value) (confidence : confidence_prop)
          (b : badge),
      ContradictionBadge up level confidence = Normal b ->
      (shows_percentage b = true <->
       exists q, confidence = ConfNum q /\ ~ (q == 0)%Q)) /\
  (forall (up : string -> string) (level : value) (b : badge),
      ContradictionBadge up level (ConfNum 0) = Normal b ->
      shows_percentage b = false) /\
  (forall (up : string -> string) (level : value) (confidence : confidence_prop),
      level = VNull \/ level = VUndefined \/
      (exists s, level = VStr s /\ up s = "") ->
      ContradictionBadge up level confidence
      = Normal (mkBadge "badge badge-gray" "❓" "UNKNOWN"
                  (confidence_slot confidence))) /\
  (forall (up : string -> string) (s : string) (confidence : confidence_prop),
      recognized up (VStr s) = false -> up s <> "" ->
      ContradictionBadge up (VStr s) confidence
      = Normal (mkBadge "badge badge-gray" "❓" (up s)
                  (confidence_slot confidence))) /\
  (forall (up : string -> string) (s : string) (confidence : confidence_prop),
      exists b, ContradictionBadge up (VStr s) confidence = Normal b).
Proof.
  split; [|split; [|split; [|split]]].
  - intros up level confidence b H. unfold shows_percentage.
    rewrite (badge_slot _ _ _ _ H), <- slot_percent.
    destruct (confidence_slot confidence); split;
      try discriminate; try (intros [? [=]]); eauto.
  - intros up level b H. unfold shows_percentage.
    now rewrite (badge_slot _ _ _ _ H).
  - apply badge_absent.
  - apply badge_unrecognized.
  - apply badge_string_renders.
Qed.

Lemma badge_confidence_and_fallback_witness :
  (shows_percentage
     (mkBadge "badge badge-high" "🚨" "HIGH" (ChildPercent (85 # 100))) = true <->
   exists q, ConfNum (85 # 100) = ConfNum q /\ ~ (q == 0)%Q) /\
  shows_percentage (mkBadge "badge badge-none" "✅" "NONE" (ChildNumber 0)) = false /\
  ContradictionBadge toUpperCase_ascii VNull (ConfNum 0)
  = Normal (mkBadge "badge badge-gray" "❓" "UNKNOWN" (ChildNumber 0)) /\
  ContradictionBadge toUpperCase_ascii (VStr "critical") ConfNull
  = Normal (mkBadge "badge badge-gray" "❓" "CRITICAL" ChildNothing).
Proof.
  split; [|split; [|split]].
  - apply (proj1 badge_confidence_and_fallback toUpperCase_ascii (VStr "high")
             (ConfNum (85 # 100))).
    vm_compute. reflexivity.
  - apply (proj1 (proj2 badge_confidence_and_fallback) toUpperCase_ascii
             (VStr "none")).
    vm_compute. reflexivity.
  - apply (proj1 (proj2 (proj2 badge_confidence_and_fallback))
             toUpperCase_ascii VNull (ConfNum 0)).
    left. reflexivity.
  - apply (proj1 (proj2 (proj2 (proj2 badge_confidence_and_fallback)))
             toUpperCase_ascii "critical" ConfNull).
    + vm_compute. reflexivity.
    + discriminate.
Defined.

(** C10, as stated, fails for an unrecognized level: 'critical', whose
    upper-case form is 'CRITICAL', is not one of the four levels, and the
    badge shows the text 'CRITICAL', not 'UNKNOWN' (on the gray badge).
    This is so for every upper-casing that sends 'critical' to 'CRITICAL'. *)
Lemma unrecognized_level_keeps_its_text :
  recognized toUpperCase_ascii (VStr "critical") = false /\
  ContradictionBadge toUpperCase_ascii (VStr "critical") ConfNull
  = Normal (mkBadge "badge badge-gray" "❓" "CRITICAL" ChildNothing) /\
  ~ unknown_for_unrecognized toUpperCase_ascii /\
  (forall up : string -> string,
      up "critical" = "CRITICAL" -> ~ unknown_for_unrecognized up).
Proof.
  split; [reflexivity|]. split; [reflexivity|]. split.
  - apply (critical_keeps_its_text toUpperCase_ascii). reflexivity.
  - intros up E. now apply critical_keeps_its_text.
Qed.

(** A level that is neither nullish nor a string has no [toUpperCase] to
    call: the optional chaining guards the receiver only. *)
Remark badge_throws_on_number_level (up : string -> string) :
  ContradictionBadge up (VNum 3) ConfNull
  = Throw (TypeError "level?.toUpperCase is not a function").
Proof. reflexivity. Qed.

End Badge.

(** ** The analysis form *)

Module AnalysisForm.
Import JS Analysis.

Lemma company_truthy c : truthy (VStr c) = true <-> c <> "".
Proof.
  simpl. rewrite Bool.negb_true_iff. split.
  - intros H ->. discriminate.
  - intros H. destruct (String.eqb c "") eqn:E; [|reflexivity].
    apply String.eqb_eq in E. contradiction.
Qed.

Lemma handleAnalysis_empty p :
  selectedCompany p = "" ->
  handleAnalysis p = show_toast (ToastError (VStr "Please select a company")) p.
Proof. intros H. unfold handleAnalysis. now rewrite H. Qed.

Lemma handleAnalysis_chosen p :
  selectedCompany p <> "" ->
  handleAnalysis p
  = mutate {| Api.company := selectedCompany p; Api.query := trim (query p) |} p.
Proof.
  intros H. unfold handleAnalysis.
  apply company_truthy in H. now rewrite H.
Qed.

Lemma sent_settle i s p : sent (settle i s p) = sent p.
Proof.
  unfold settle. destruct (existsb _ (inflight p)); [|reflexivity].
  destruct s; reflexivity.
Qed.

Lemma sent_handleAnalysis p :
  (selectedCompany p = "" /\ sent (handleAnalysis p) = sent p) \/
  (selectedCompany p <> "" /\
   sent (handleAnalysis p) = sent p ++ [analyze_request p]).
Proof.
  destruct (String.eqb (selectedCompany p) "") eqn:E.
  - apply String.eqb_eq in E. left. split; [exact E|].
    now rewrite handleAnalysis_empty.
  - apply String.eqb_neq in E. right. split; [exact E|].
    now rewrite handleAnalysis_chosen.
Qed.

Lemma sent_ui_step p e :
  sent (ui_step p e) = sent p \/
  (e = ClickSubmit /\ selectedCompany p <> "" /\
   sent (ui_step p e) = sent p ++ [analyze_request p]).
Proof.
  destruct e; simpl; try (left; reflexivity).
  - destruct (predefinedQueries !! i); left; reflexivity.
  - destruct (submit_disabled p); [left; reflexivity|].
    destruct (sent_handleAnalysis p) as [[_ H]|[H1 H2]]; [now left|].
    right. auto.
  - left. apply sent_settle.
Qed.

Lemma ui_run_snoc p es e : ui_run p (es ++ [e]) = ui_step (ui_run p es) e.
Proof. unfold ui_run. now rewrite fold_left_app. Qed.

(** Whatever holds of the request [handleAnalysis] builds, from any page with
    a company chosen, holds of every request ever sent. *)
Lemma sent_ui_run (P : Api.request -> Prop) es :
  (forall p, selectedCompany p <> "" -> P (analyze_request p)) ->
  Forall P (sent (ui_run initial es)).
Proof.
  intros HP. induction es as [|e es IH] using rev_ind; [constructor|].
  rewrite ui_run_snoc.
  destruct (sent_ui_step (ui_run initial es) e) as [->|(_ & Hc & ->)];
    [exact IH|].
  apply Forall_app. split; [exact IH|]. constructor; [|constructor].
  now apply HP.
Qed.

(** *** The observer follows the wire *)

Lemma wire_initial : wire_matches_observer initial.
Proof. left. split; reflexivity. Qed.

Lemma wire_ui_step p e :
  wire_matches_observer p -> wire_matches_observer (ui_step p e).
Proof.
  intros Hp. destruct e; simpl; try exact Hp.
  - destruct (predefinedQueries !! i); exact Hp.
  - destruct (submit_disabled p) eqn:D; [exact Hp|].
    apply Bool.orb_false_iff in D as [Dc Dp].
    apply Bool.negb_false_iff in Dc.
    destruct Hp as [[Hw _]|(i & r & _ & Hpend & _)]; [|congruence].
    unfold handleAnalysis. rewrite Dc. simpl.
    right. exists (next_id p), (Api.analyzeCompany
      {| Api.company := selectedCompany p; Api.query := trim (query p) |}).
    simpl. rewrite Hw. repeat split.
  - destruct Hp as [[Hw Hpend]|(j & r & Hw & Hpend & Hcur)].
    + unfold settle. rewrite Hw. simpl. left. now split.
    + unfold settle. rewrite Hw. simpl.
      destruct (Nat.eqb j i) eqn:E; simpl.
      * left. rewrite Hcur, E. destruct s; simpl; now split.
      * right. exists j, r. rewrite Hw, Hpend, Hcur. repeat split.
Qed.

Lemma wire_ui_run es : wire_matches_observer (ui_run initial es).
Proof.
  induction es as [|e es IH] using rev_ind; [exact wire_initial|].
  rewrite ui_run_snoc. now apply wire_ui_step.
Qed.

Lemma length_filter_le {A} (f : A -> bool) (l : list A) :
  (length (List.filter f l) <= length l)%nat.
Proof. apply List.filter_length_le. Qed.

(** C4, as the code has it.  On one mounted Analysis page, after any
    sequence of form input, presses on the submit button and settlements of
    requests since it was mounted: at most one analyze request is on the
    wire, hence at most one for any company; the mutation is pending exactly
    while a request is on the wire; and while it is pending the submit button
    is disabled, so that a press on it changes nothing and sends nothing. *)
Theorem one_analysis_in_flight (es : list ui_event) :
  let p := ui_run initial es in
  (length (inflight p) <= 1)%nat /\
  (forall c : string, (length (inflight_for c p) <= 1)%nat) /\
  (isPending p = true <-> inflight p <> []) /\
  (isPending p = true ->
     submit_disabled p = true /\
     ui_step p ClickSubmit = p /\
     sent (ui_step p ClickSubmit) = sent p).
Proof.
  intros p. pose proof (wire_ui_run es) as H. fold p in H.
  assert (Hlen : (length (inflight p) <= 1)%nat).
  { destruct H as [[-> _]|(i & r & -> & _)]; simpl; lia. }
  split; [exact Hlen|]. split; [|split].
  - intros c. unfold inflight_for.
    etransitivity; [apply length_filter_le|exact Hlen].
  - destruct H as [[-> ->]|(i & r & -> & -> & _)]; split; congruence.
  - intros Hpend.
    assert (D : submit_disabled p = true).
    { unfold submit_disabled. rewrite Hpend. apply Bool.orb_true_r. }
    split; [exact D|]. simpl. rewrite D. split; reflexivity.
Qed.

Lemma one_analysis_in_flight_witness :
  let p := ui_run initial [ChangeCompany "TechCorp"; ClickSubmit] in
  isPending p = true /\
  submit_disabled p = true /\
  ui_step p ClickSubmit = p /\
  sent (ui_step p ClickSubmit) = sent p.
Proof.
  split; [reflexivity|].
  apply (proj2 (proj2 (proj2
           (one_analysis_in_flight [ChangeCompany "TechCorp"; ClickSubmit])))).
  reflexivity.
Defined.

(** The guard is the button: [handleAnalysis] itself, run on a page whose
    mutation is pending, sends a second request. *)
Remark handleAnalysis_has_no_pending_guard :
  let p := ui_run initial [ChangeCompany "TechCorp"; ClickSubmit] in
  isPending p = true /\ length (inflight (handleAnalysis p)) = 2%nat.
Proof. split; reflexivity. Qed.

(** C4, as stated, fails across mounts of the page: with a request for
    TechCorp pending, leaving /analysis and coming back gives a page whose
    button is enabled once the company is selected again, and a press on it
    puts a second request for TechCorp on the wire beside the first. *)
Lemma second_request_after_revisit :
  let p1 := ui_run initial [ChangeCompany "TechCorp"; ClickSubmit] in
  let p2 := ui_run (revisit p1) [ChangeCompany "TechCorp"; ClickSubmit] in
  isPending p1 = true /\
  submit_disabled (ui_run (revisit p1) [ChangeCompany "TechCorp"]) = false /\
  map (fun ir => Api.company (Api.body (snd ir))) (inflight p2)
  = ["TechCorp"; "TechCorp"] /\
  length (inflight_for "TechCorp" p2) = 2%nat /\
  ~ one_request_per_company.
Proof.
  repeat split.
  intros H.
  specialize (H [ChangeCompany "TechCorp"; ClickSubmit]
                [ChangeCompany "TechCorp"; ClickSubmit] "TechCorp").
  vm_compute in H. lia.
Qed.

(** C6. With no company selected, [handleAnalysis] shows the error toast
    'Please select a company' and sends nothing; whenever [handleAnalysis]
    sends a request a company is selected; and every request sent by the
    page since it was mounted names a non-empty company. *)
Theorem analysis_needs_company :
  (forall p : page,
      selectedCompany p = "" ->
      handleAnalysis p
      = show_toast (ToastError (VStr "Please select a company")) p /\
      sent (handleAnalysis p) = sent p /\
      inflight (handleAnalysis p) = inflight p /\
      toasts (handleAnalysis p)
      = toasts p ++ [ToastError (VStr "Please select a company")]) /\
  (forall p : page,
      sent (handleAnalysis p) <> sent p -> selectedCompany p <> "") /\
  (forall es : list ui_event,
      Forall company_chosen (sent (ui_run initial es))).
Proof.
  split; [|split].
  - intros p H. rewrite (handleAnalysis_empty p H). repeat split.
  - intros p H Hc. apply H. now rewrite (handleAnalysis_empty p Hc).
  - intros es. apply sent_ui_run. intros p Hp. exact Hp.
Qed.

Lemma analysis_needs_company_witness :
  (handleAnalysis initial
   = show_toast (ToastError (VStr "Please select a company")) initial /\
   sent (handleAnalysis initial) = sent initial /\
   inflight (handleAnalysis initial) = inflight initial /\
   toasts (handleAnalysis initial)
   = toasts initial ++ [ToastError (VStr "Please select a company")]) /\
  selectedCompany (setSelectedCompany "TechCorp" initial) <> "".
Proof.
  split.
  - apply (proj1 analysis_needs_company initial). reflexivity.
  - apply (proj1 (proj2 analysis_needs_company)
             (setSelectedCompany "TechCorp" initial)).
    discriminate.
Defined.

(** *** [trim] *)

Section StripFacts.

Variable t1 : ascii -> bool.
Variable t2 : ascii -> ascii -> bool.
Variable t3 : ascii -> ascii -> ascii -> bool.

Lemma strip_spec_le n : forall l, (length l <= n)%nat ->
  exists pre, l = pre ++ strip t1 t2 t3 l /\ run t1 t2 t3 pre /\
              leads t1 t2 t3 (strip t1 t2 t3 l) = false.
Proof.
  induction n as [|n IH]; intros l Hl.
  { destruct l; [|simpl in Hl; lia]. exists []. repeat split. constructor. }
  destruct l as [|a r]; [exists []; repeat split; constructor|].
  simpl in Hl. simpl strip. destruct (t1 a) eqn:E1.
  { destruct (IH r ltac:(lia)) as (pre & E & Hr & Hc).
    exists (a :: pre). simpl. rewrite <- E. repeat split; [|exact Hc].
    now constructor. }
  destruct r as [|b r2].
  { exists []. repeat split; [constructor|]. simpl. now rewrite E1. }
  simpl in Hl. destruct (t2 a b) eqn:E2.
  { destruct (IH r2 ltac:(lia)) as (pre & E & Hr & Hc).
    exists (a :: b :: pre). simpl. rewrite <- E. repeat split; [|exact Hc].
    now constructor. }
  destruct r2 as [|c r3].
  { exists []. repeat split; [constructor|]. simpl. now rewrite E1, E2. }
  simpl in Hl. destruct (t3 a b c) eqn:E3.
  { destruct (IH r3 ltac:(lia)) as (pre & E & Hr & Hc).
    exists (a :: b :: c :: pre). simpl. rewrite <- E. repeat split; [|exact Hc].
    now constructor. }
  exists []. repeat split; [constructor|]. simpl. now rewrite E1, E2, E3.
Qed.

Lemma strip_spec l :
  exists pre, l = pre ++ strip t1 t2 t3 l /\ run t1 t2 t3 pre /\
              leads t1 t2 t3 (strip t1 t2 t3 l) = false.
Proof. apply (strip_spec_le (length l)). lia. Qed.

Lemma leads_app l m :
  leads t1 t2 t3 l = true -> leads t1 t2 t3 (l ++ m) = true.
Proof.
  destruct l as [|a [|b [|c r]]]; simpl; try discriminate.
  - rewrite Bool.orb_false_r. now intros ->.
  - rewrite Bool.orb_false_r. destruct (t1 a); [reflexivity|]. simpl.
    now intros ->.
  - auto.
Qed.

Lemma run_app x y : run t1 t2 t3 x -> run t1 t2 t3 y -> run t1 t2 t3 (x ++ y).
Proof.
  induction 1 as [|a r H _ IH|a b r H _ IH|a b c r H _ IH]; intros Hy; simpl.
  - exact Hy.
  - apply run_1; auto.
  - apply run_2; auto.
  - apply run_3; auto.
Qed.

End StripFacts.

Lemma run_rev t1 t2 t3 m :
  run t1 (fun b a => t2 a b) (fun c b a => t3 a b c) m -> run t1 t2 t3 (rev m).
Proof.
  induction 1 as [|a r H _ IH|a b r H _ IH|a b c r H _ IH]; simpl.
  - constructor.
  - apply run_app; [exact IH|]. constructor; [exact H|constructor].
  - rewrite <- app_assoc. apply run_app; [exact IH|]. simpl.
    constructor; [exact H|constructor].
  - rewrite <- !app_assoc. apply run_app; [exact IH|]. simpl.
    constructor; [exact H|constructor].
Qed.

Lemma trimStart_chars_spec l :
  exists pre, l = pre ++ trimStart_chars l /\ white pre /\
              starts_clean (trimStart_chars l).
Proof. apply strip_spec. Qed.

Lemma trimEnd_chars_spec l :
  exists post, l = trimEnd_chars l ++ post /\ white post /\
               ends_clean (trimEnd_chars l).
Proof.
  unfold trimEnd_chars, ends_clean, white.
  destruct (strip_spec is_space (fun b a => is_space2 a b)
              (fun c b a => is_space3 a b c) (rev l)) as (pre & E & Hr & Hc).
  exists (rev pre). repeat split.
  - rewrite <- rev_app_distr, <- E. symmetry. apply rev_involutive.
  - now apply run_rev.
  - now rewrite rev_involutive.
Qed.

Lemma starts_clean_prefix l m post :
  l = m ++ post -> starts_clean l -> starts_clean m.
Proof.
  unfold starts_clean. intros -> H.
  destruct (leads is_space is_space2 is_space3 m) eqn:E; [|reflexivity].
  rewrite (leads_app _ _ _ _ post E) in H. discriminate.
Qed.

Lemma trim_spec s :
  exists pre post,
    list_ascii_of_string s = pre ++ list_ascii_of_string (trim s) ++ post /\
    white pre /\ white post /\
    starts_clean (list_ascii_of_string (trim s)) /\
    ends_clean (list_ascii_of_string (trim s)).
Proof.
  unfold trim. rewrite list_ascii_of_string_of_list_ascii.
  destruct (trimStart_chars_spec (list_ascii_of_string s)) as (pre & E & Hpre & Hs).
  destruct (trimEnd_chars_spec (trimStart_chars (list_ascii_of_string s)))
    as (post & E' & Hpost & He).
  exists pre, post. repeat split; try assumption.
  - now rewrite <- E', <- E.
  - eapply starts_clean_prefix; [exact E'|exact Hs].
Qed.

(** A no-break space (U+00A0, bytes C2 A0) at either end goes too. *)
Example trim_strips_no_break_space :
  let nbsp := String (ascii_of_nat 194) (String (ascii_of_nat 160) EmptyString) in
  trim (String.append nbsp (String.append " x y" nbsp)) = "x y".
Proof. reflexivity. Qed.

(** C7. With a company selected, [handleAnalysis] sends one request: a POST
    to /analyze whose body is the selected company, as it is, and the query
    with the white space at both ends removed.  Every step of the page
    either sends nothing or sends that request, so all requests the page has
    sent are POSTs to /analyze.  The trimmed query is the query without a
    leading and a trailing run of white space characters (the WhiteSpace
    and LineTerminator characters of the language, in UTF-8), and has none
    at either end. *)
Theorem analysis_request_shape :
  (forall p : page,
      selectedCompany p <> "" ->
      sent (handleAnalysis p)
      = sent p ++ [ {| Api.method := Api.POST; Api.url := "/analyze";
                       Api.body := {| Api.company := selectedCompany p;
                                      Api.query := trim (query p) |} |} ] /\
      inflight (handleAnalysis p) = inflight p ++ [(next_id p, analyze_request p)]) /\
  (forall (p : page) (e : ui_event),
      sent (ui_step p e) = sent p \/
      (e = ClickSubmit /\ selectedCompany p <> "" /\
       sent (ui_step p e) = sent p ++ [analyze_request p])) /\
  (forall es : list ui_event,
      Forall posts_to_analyze (sent (ui_run initial es))) /\
  (forall s : string,
      exists pre post,
        list_ascii_of_string s = pre ++ list_ascii_of_string (trim s) ++ post /\
        white pre /\ white post /\
        starts_clean (list_ascii_of_string (trim s)) /\
        ends_clean (list_ascii_of_string (trim s))).
Proof.
  split; [|split; [|split]].
  - intros p H. rewrite (handleAnalysis_chosen p H). split; reflexivity.
  - apply sent_ui_step.
  - intros es. apply sent_ui_run. intros p _. split; reflexivity.
  - apply trim_spec.
Qed.

Lemma analysis_request_shape_witness :
  let p := setQuery "  supply chain " (setSelectedCompany "TechCorp" initial) in
  sent (handleAnalysis p)
  = [ {| Api.method := Api.POST; Api.url := "/analyze";
         Api.body := {| Api.company := "TechCorp";
                        Api.query := "supply chain" |} |} ] /\
  inflight (handleAnalysis p) = inflight p ++ [(next_id p, analyze_request p)].
Proof.
  apply (proj1 analysis_request_shape
           (setQuery "  supply chain " (setSelectedCompany "TechCorp" initial))).
  discriminate.
Defined.

End AnalysisForm.

(** ** The provider beyond the alert buffer *)

Module ProviderFacts.
Import JS WebSocketContext ProviderApi.

Lemma strict_eq_refl v : strict_eq v v = true.
Proof.
  destruct v; simpl; try reflexivity.
  - apply Bool.eqb_reflx.
  - apply Qeq_bool_iff. reflexivity.
  - apply String.eqb_refl.
  - apply Nat.eqb_refl.
  - apply Nat.eqb_refl.
Qed.

(** A message changes neither the connection cells nor the retry timers. *)
Lemma handleWebSocketMessage_connection d now iso w w' :
  handleWebSocketMessage d now iso w = Normal w' ->
  socket (st w') = socket (st w) /\ isConnected (st w') = isConnected (st w) /\
  ws w' = ws w /\ timers w' = timers w /\ next_socket w' = next_socket w.
Proof.
  unfold handleWebSocketMessage.
  destruct d as [| | | | |o]; simpl; try discriminate;
    try (intros [= <-]; now repeat split).
  destruct (strict_eq (get o "type") (VStr "alert")).
  { intros H.
    apply AlertFeed.handleAlert_inv in H as (_ & _ & H1 & H2 & H3 & H4 & H5 & _).
    now repeat split. }
  unfold handleNewsUpdate, handleAnalysisComplete, template.
  case_ifs; try discriminate; intros [= <-]; now repeat split.
Qed.

Lemma handleWebSocketMessage_alerts d now iso w w' :
  handleWebSocketMessage d now iso w = Normal w' ->
  alerts (st w') = alerts (st w) \/
  exists o, d = PObj o /\ get o "type" = VStr "alert" /\
            alerts (st w') = newAlert o now iso :: take 49 (alerts (st w)).
Proof.
  unfold handleWebSocketMessage.
  destruct d as [| | | | |o]; simpl; try discriminate;
    try (intros [= <-]; now left).
  destruct (strict_eq (get o "type") (VStr "alert")) eqn:E.
  - intros H. right. exists o. apply Dispatch.strict_eq_str in E.
    repeat split; [exact E|].
    now apply AlertFeed.handleAlert_inv in H as (_ & H & _).
  - unfold handleNewsUpdate, handleAnalysisComplete, template.
    case_ifs; try discriminate; intros [= <-]; now left.
Qed.

Lemma onmessage_frame (parse : string -> option parsed)
    (event_data : string) (now : Z) (iso : string) (w : world) :
  let w' := onmessage parse event_data now iso w in
  socket (st w') = socket (st w) /\ isConnected (st w') = isConnected (st w) /\
  ws w' = ws w /\ timers w' = timers w /\ next_socket w' = next_socket w /\
  (alerts (st w') = alerts (st w) \/
   exists o, parse event_data = Some (PObj o) /\ get o "type" = VStr "alert" /\
             alerts (st w') = newAlert o now iso :: take 49 (alerts (st w))).
Proof.
  unfold onmessage, onmessage_try, try_catch, WebSocketContext.parse.
  destruct (parse event_data) as [d|]; simpl.
  - destruct (handleWebSocketMessage d now iso w) as [w'|] eqn:E; simpl.
    + destruct (handleWebSocketMessage_connection _ _ _ _ _ E)
        as (H1 & H2 & H3 & H4 & H5).
      repeat split; try assumption.
      destruct (handleWebSocketMessage_alerts _ _ _ _ _ E)
        as [H|(o & -> & Ht & Ha)]; [now left|].
      right. exists o. now repeat split.
    + repeat split. now left.
  - repeat split. now left.
Qed.

(** X4. Whatever its data (valid JSON or not, any type), a message leaves
    the socket, the connection flag, the socket variable and the pending
    timers as they were; and it either leaves the alert list as it was or is
    an object of type 'alert' whose alert is put in front of the 49 most
    recent ones. *)
Theorem onmessage_keeps_connection (parse : string -> option parsed)
    (event_data : string) (now : Z) (iso : string) (w : world) :
  let w' := onmessage parse event_data now iso w in
  socket (st w') = socket (st w) /\ isConnected (st w') = isConnected (st w) /\
  ws w' = ws w /\ timers w' = timers w /\ next_socket w' = next_socket w /\
  (alerts (st w') = alerts (st w) \/
   exists o, parse event_data = Some (PObj o) /\ get o "type" = VStr "alert" /\
             alerts (st w') = newAlert o now iso :: take 49 (alerts (st w))).
Proof. apply onmessage_frame. Qed.

Lemma step_not_open_disconnected parse w e :
  not_open e = true -> isConnected (st w) = false ->
  isConnected (st (step parse w e)) = false.
Proof.
  intros He Hw. destruct e; simpl; try discriminate; try exact Hw.
  - destruct (onmessage_frame parse event_data now iso w)
      as (_ & H & _). now rewrite H.
  - reflexivity.
  - unfold fire_timer. destruct (timers w) as [|t rest]; [exact Hw|].
    destruct (timer_callback t), ctor_ok; exact Hw.
Qed.

(** X1. [sendMessage] hands the message to the socket only when the state
    holds a socket and the connection flag is set.  Right after the socket
    opened it sends on that socket; from a close on, whatever else happens
    (messages, errors, retries, further closes), it only warns until a
    socket opens again. *)
Theorem sendMessage_only_while_open {M : Type} (message : M) :
  (forall (s : state) (k : nat) (m : M),
      sendMessage message s = SocketSend k m ->
      m = message /\ socket s = Some k /\ isConnected s = true) /\
  (forall (w : world) (k : nat),
      ws w = Some k -> sendMessage message (st (onopen w)) = SocketSend k message) /\
  (forall (parse : string -> option parsed) (w : world) (es : list event),
      forallb not_open es = true ->
      sendMessage message (st (run parse (onclose w) es)) = ConsoleWarned).
Proof.
  split; [|split].
  - intros s k m. unfold sendMessage.
    destruct (socket s) as [j|]; [|discriminate].
    destruct (isConnected s); [|discriminate].
    intros [= -> ->]. now repeat split.
  - intros w k H. unfold sendMessage, onopen. simpl. now rewrite H.
  - intros parse w es Hes.
    assert (H : isConnected (st (run parse (onclose w) es)) = false).
    { assert (H0 : isConnected (st (onclose w)) = false) by reflexivity.
      revert H0. generalize (onclose w) as v. revert Hes.
      induction es as [|e es IH]; intros Hes v Hv; simpl; [exact Hv|].
      simpl in Hes. apply andb_prop in Hes as [He Hes].
      apply IH; [exact Hes|]. now apply step_not_open_disconnected. }
    unfold sendMessage. rewrite H. now destruct (socket _).
Qed.

Lemma sendMessage_only_while_open_witness :
  sendMessage "ping" (st (onopen (mount true))) = SocketSend 0%nat "ping" /\
  sendMessage "ping"
    (st (run sample_parse (onclose (onopen (mount true)))
           [EvError; EvTimer true; EvMessage "null" 0 ""]))
  = ConsoleWarned /\
  ("ping" = "ping" /\ socket (st (onopen (mount true))) = Some 0%nat /\
   isConnected (st (onopen (mount true))) = true).
Proof.
  split; [|split].
  - apply (proj1 (proj2 (sendMessage_only_while_open "ping")) (mount true) 0%nat).
    reflexivity.
  - apply (proj2 (proj2 (sendMessage_only_while_open "ping")) sample_parse
             (onopen (mount true)) [EvError; EvTimer true; EvMessage "null" 0 ""]).
    reflexivity.
  - apply (proj1 (sendMessage_only_while_open "ping")
             (st (onopen (mount true))) 0%nat "ping").
    reflexivity.
Defined.

Lemma step_flags_agree parse w e : flags_agree w -> flags_agree (step parse w e).
Proof.
  unfold flags_agree. intros Hw. destruct e; simpl; try exact Hw.
  - discriminate.
  - destruct (onmessage_frame parse event_data now iso w)
      as (H1 & H2 & _). now rewrite H1, H2.
  - reflexivity.
  - unfold fire_timer. destruct (timers w) as [|t rest]; [exact Hw|].
    destruct (timer_callback t), ctor_ok; exact Hw.
Qed.

(** X2. After any sequence of provider events since mount, a state that is
    flagged as disconnected holds no socket: [onclose] clears both cells and
    nothing but [onopen] sets the socket. *)
Theorem socket_cleared_while_disconnected
    (parse : string -> option parsed) (ctor_ok : bool) (es : list event) :
  let w := run parse (mount ctor_ok) es in
  isConnected (st w) = false -> socket (st w) = None.
Proof.
  assert (H : flags_agree (mount ctor_ok)) by (destruct ctor_ok; intros _; reflexivity).
  revert H. generalize (mount ctor_ok) as v.
  induction es as [|e es IH]; intros v Hv; simpl; [exact Hv|].
  apply IH. now apply step_flags_agree.
Qed.

Lemma socket_cleared_while_disconnected_witness :
  socket (st (run sample_parse (mount true) [EvOpen; EvMessage "true" 0 ""; EvClose]))
  = None.
Proof.
  apply (socket_cleared_while_disconnected sample_parse true
           [EvOpen; EvMessage "true" 0 ""; EvClose]).
  reflexivity.
Defined.

Lemma step_connection_event parse w e :
  connection_event e = true ->
  alerts (st (step parse w e)) = alerts (st w) /\
  toasts (step parse w e) = toasts w.
Proof.
  intros He. destruct e; simpl; try discriminate; try (split; reflexivity).
  unfold fire_timer. destruct (timers w) as [|t rest]; [split; reflexivity|].
  destruct (timer_callback t), ctor_ok; split; reflexivity.
Qed.

(** X3. Opening, closing, socket errors and retries, in any number and
    order, leave the alert list and the toasts as they were: the alerts
    received before a disconnection are still there after reconnecting. *)
Theorem alerts_survive_reconnection
    (parse : string -> option parsed) (w : world) (es : list event) :
  forallb connection_event es = true ->
  alerts (st (run parse w es)) = alerts (st w) /\
  toasts (run parse w es) = toasts w.
Proof.
  revert w. induction es as [|e es IH]; intros w H; simpl; [split; reflexivity|].
  simpl in H. apply andb_prop in H as [He Hes].
  destruct (IH (step parse w e) Hes) as [-> ->].
  now apply step_connection_event.
Qed.

Lemma alerts_survive_reconnection_witness :
  alerts (st (run sample_parse fifty_alerts
                [EvClose; EvTimer false; EvTimer true; EvError; EvOpen]))
  = alerts (st fifty_alerts) /\
  toasts (run sample_parse fifty_alerts
            [EvClose; EvTimer false; EvTimer true; EvError; EvOpen])
  = toasts fifty_alerts.
Proof.
  apply (alerts_survive_reconnection sample_parse fifty_alerts
           [EvClose; EvTimer false; EvTimer true; EvError; EvOpen]).
  reflexivity.
Defined.

Lemma filter_comm {A} (f g : A -> bool) l :
  List.filter f (List.filter g l) = List.filter g (List.filter f l).
Proof.
  induction l as [|a l IH]; simpl; [reflexivity|].
  destruct (f a) eqn:F, (g a) eqn:G; simpl; rewrite ?F, ?G, IH; reflexivity.
Qed.

(** X5. Removals commute: removing id [x] and then [y] gives the list that
    removing [y] and then [x] gives.  Clearing empties the list, and a
    removal before or after a clear changes nothing about that. *)
Theorem removeAlert_commutes_clear_absorbs (x y : value) (w : world) :
  removeAlert x (removeAlert y w) = removeAlert y (removeAlert x w) /\
  alerts (st (clearAlerts w)) = [] /\
  removeAlert x (clearAlerts w) = clearAlerts w /\
  clearAlerts (removeAlert x w) = clearAlerts w.
Proof.
  repeat split.
  unfold removeAlert, setAlerts, removeAlert_list. simpl.
  now rewrite filter_comm.
Qed.

(** X6. An alert put on a list of at most 49 alerts, none of which has its
    id, is taken off again by [removeAlert] of its id, and the list is back
    to what it was.  (When [handleAlert] throws, the list was never changed,
    and the removal finds nothing.) *)
Theorem alert_added_then_removed (data : gmap string value) (now : Z)
    (iso : string) (w : world) :
  (length (alerts (st w)) <= 49)%nat ->
  (forall a, In a (alerts (st w)) ->
             strict_eq (alert_id a) (alert_id (newAlert data now iso)) = false) ->
  alerts (st (removeAlert (alert_id (newAlert data now iso))
                (receive w (mkAlertEvent data now iso))))
  = alerts (st w).
Proof.
  intros Hlen Hfresh. unfold removeAlert.
  rewrite AlertFeed.alerts_setAlerts, AlertFeed.alerts_receive. simpl.
  destruct (alert_text_ok data).
  - rewrite take_ge by exact Hlen.
    unfold removeAlert_list at 1, built. simpl. rewrite strict_eq_refl. simpl.
    now apply AlertRemoval.removeAlert_list_absent.
  - now apply AlertRemoval.removeAlert_list_absent.
Qed.

Lemma alert_added_then_removed_witness :
  alerts (st (removeAlert (alert_id (built (sample_alert 7)))
                (receive (receive initial_world (sample_alert 0)) (sample_alert 7))))
  = alerts (st (receive initial_world (sample_alert 0))).
Proof.
  apply (alert_added_then_removed (ev_data (sample_alert 7)) (ev_now (sample_alert 7))
           (ev_iso (sample_alert 7)) (receive initial_world (sample_alert 0))).
  - vm_compute. lia.
  - intros a [<-|[]]. vm_compute. reflexivity.
Defined.

Lemma newAlert_stamped d now iso : stamped (newAlert d now iso).
Proof.
  split.
  - unfold newAlert. rewrite lookup_insert_ne by discriminate.
    destruct (d !! "id") as [v|] eqn:E.
    + rewrite (lookup_union_Some_l _ _ _ _ E). eauto.
    + rewrite lookup_union_r by exact E. rewrite lookup_singleton_eq. eauto.
  - exists iso. unfold newAlert. apply lookup_insert_eq.
Qed.

Lemma Forall_filter {A} (P : A -> Prop) f l : Forall P l -> Forall P (List.filter f l).
Proof.
  induction 1 as [|a l Ha _ IH]; simpl; [constructor|].
  destruct (f a); [now constructor|exact IH].
Qed.

Lemma step_stamped parse w e :
  Forall stamped (alerts (st w)) -> Forall stamped (alerts (st (step parse w e))).
Proof.
  intros H. destruct e; simpl; try exact H.
  - destruct (onmessage_frame parse event_data now iso w)
      as (_ & _ & _ & _ & _ & [->|(o & _ & _ & ->)]); [exact H|].
    constructor; [apply newAlert_stamped|]. now apply Forall_take.
  - unfold fire_timer. destruct (timers w) as [|t rest]; [exact H|].
    destruct (timer_callback t), ctor_ok; exact H.
  - constructor.
  - now apply Forall_filter.
Qed.

(** X7. After any sequence of provider events since mount, every alert of
    the list has an [id] field and a [timestamp] field that is a string,
    whatever the messages carried (also when a message came with a
    [timestamp] of its own, or without any [id]). *)
Theorem alerts_stay_stamped
    (parse : string -> option parsed) (ctor_ok : bool) (es : list event) :
  Forall stamped (alerts (st (run parse (mount ctor_ok) es))).
Proof.
  assert (H : Forall stamped (alerts (st (mount ctor_ok))))
    by (destruct ctor_ok; constructor).
  revert H. generalize (mount ctor_ok) as v.
  induction es as [|e es IH]; intros v Hv; simpl; [exact Hv|].
  apply IH. now apply step_stamped.
Qed.

End ProviderFacts.

(** ** The navigation bar *)

Module NavbarFacts.
Import JS WebSocketContext Navbar.





(** X9. Whatever the path, at most one entry of the navigation is marked
    current, and one is exactly when the path is one of the four links
    (so none is on a company page). *)
Theorem navigation_one_current (pathname : string) :
  (length (List.filter (fun b : bool => b) (navigation_current pathname)) <= 1)%nat /\
  (In true (navigation_current pathname) <-> In pathname navigation_hrefs).
Proof.
  unfold navigation_current, navigation_hrefs. simpl.
  destruct (String.eqb_spec pathname "/") as [->|H1]; simpl.
  { split; [lia|]. split; auto. }
  destruct (String.eqb_spec pathname "/analysis") as [->|H2]; simpl.
  { split; [lia|]. split; auto. }
  destruct (String.eqb_spec pathname "/news") as [->|H3]; simpl.
  { split; [lia|]. split; auto. }
  destruct (String.eqb_spec pathname "/settings") as [->|H4]; simpl.
  { split; [lia|]. split; auto. }
  split; [lia|]. split.
  - intros [H|[H|[H|[H|[]]]]]; discriminate.
  - intros [H|[H|[H|[H|[]]]]]; congruence.
Qed.

End NavbarFacts.

(** ** More on the contradiction badge *)

Module BadgeFacts.
Import JS ContradictionBadge.



End BadgeFacts.

(** ** The News page *)

Module NewsFacts.
Import JS News.

Lemma filter_all {A} (f : A -> bool) l :
  (forall a, f a = true) -> List.filter f l = l.
Proof.
  intros H. induction l as [|a l IH]; simpl; [reflexivity|].
  now rewrite H, IH.
Qed.

Lemma filter_idem {A} (f : A -> bool) l :
  List.filter f (List.filter f l) = List.filter f l.
Proof.
  induction l as [|a l IH]; simpl; [reflexivity|].
  destruct (f a) eqn:E; simpl; [rewrite E; now f_equal|exact IH].
Qed.

(** X13. The severity filter.  While the news are not loaded the list is
    empty.  With 'ALL' every article is listed, in the order received.  With
    any other filter the articles listed are exactly those whose [severity]
    is that string (an article without severity is never listed), still in
    order; and filtering the result again changes nothing. *)
Theorem filteredNews_selects_severity :
  (forall f : string, filteredNews None f = []) /\
  (forall l : list (gmap string value), filteredNews (Some l) "ALL" = l) /\
  (forall (l : list (gmap string value)) (f : string) (a : gmap string value),
      f <> "ALL" ->
      (In a (filteredNews (Some l) f) <-> In a l /\ get a "severity" = VStr f)) /\
  (forall (news : option (list (gmap string value))) (f : string),
      filteredNews (Some (filteredNews news f)) f = filteredNews news f /\
      (length (filteredNews news f) <= length (default [] news))%nat).
Proof.
  split; [reflexivity|]. split; [|split].
  - intros l. unfold filteredNews. simpl. now apply filter_all.
  - intros l f a Hf. unfold filteredNews. rewrite filter_In.
    apply String.eqb_neq in Hf. rewrite Hf. simpl.
    now rewrite Dispatch.strict_eq_str.
  - intros [l|] f; simpl; [|split; [reflexivity|lia]].
    split; [apply filter_idem|apply List.filter_length_le].
Qed.

Lemma filteredNews_selects_severity_witness :
  In {[ "severity" := VStr "HIGH" ]}
     (filteredNews (Some [ {[ "severity" := VStr "LOW" ]};
                           {[ "severity" := VStr "HIGH" ]} ]) "HIGH").
Proof.
  apply (proj1 (proj2 (proj2 filteredNews_selects_severity))
           [ {[ "severity" := VStr "LOW" ]}; {[ "severity" := VStr "HIGH" ]} ]
           "HIGH" {[ "severity" := VStr "HIGH" ]}).
  - discriminate.
  - split; [right; left; reflexivity|reflexivity].
Defined.

(** X14. [getTimeDifference] on a valid publication date.  It answers 'Less
    than 1 hour ago' exactly when less than 3,600,000 ms have passed (also
    for a date in the future); 'h hours ago' with h from 1 to 23 being the
    whole hours passed; and otherwise 'd days ago' with d at least 1 being
    the whole days (of 86,400,000 ms) passed. *)
Theorem getTimeDifference_ranges (now published : Z) :
  let elapsed := now - published in
  match getTimeDifference now (Some published) with
  | LessThanOneHour => elapsed < 3600000
  | HoursAgo h =>
      1 <= h <= 23 /\ h * 3600000 <= elapsed < (h + 1) * 3600000
  | DaysAgo (Some d) =>
      1 <= d /\ d = elapsed / 86400000 /\
      d * 86400000 <= elapsed < (d + 1) * 86400000
  | DaysAgo None => False
  end.
Proof.
  intros elapsed. unfold getTimeDifference. fold elapsed.
  change (1000 * 60 * 60) with 3600000.
  pose proof (Z.div_mod elapsed 3600000 ltac:(lia)) as Hdm.
  pose proof (Z.mod_pos_bound elapsed 3600000 ltac:(lia)) as Hm.
  destruct (Z.ltb_spec (elapsed / 3600000) 1) as [H1|H1]; [lia|].
  destruct (Z.ltb_spec (elapsed / 3600000) 24) as [H24|H24]; [lia|].
  assert (Hd : elapsed / 3600000 / 24 = elapsed / 86400000)
    by (rewrite Z.div_div by lia; reflexivity).
  pose proof (Z.div_mod elapsed 86400000 ltac:(lia)) as Hdm'.
  pose proof (Z.mod_pos_bound elapsed 86400000 ltac:(lia)) as Hm'.
  rewrite Hd. repeat split; lia.
Qed.

(** *** The Add News form *)

Lemma filled s : truthy (VStr s) = true <-> s <> "".
Proof. apply AnalysisForm.company_truthy. Qed.

Lemma handleSubmit_complete m :
  complete (form m) ->
  handleSubmit m
  = {| form := form m; isPending := true;
       sent := sent m ++ [addNewsUpdate (form m)];
       toasts := toasts m; closed := closed m |}.
Proof.
  intros (H1 & H2 & H3). unfold handleSubmit.
  apply filled in H1, H2, H3. now rewrite H1, H2, H3.
Qed.

Lemma handleSubmit_incomplete m :
  ~ complete (form m) ->
  handleSubmit m
  = {| form := form m; isPending := isPending m; sent := sent m;
       toasts := toasts m ++ [ToastError (VStr "Please fill in all required fields")];
       closed := closed m |}.
Proof.
  intros H. unfold handleSubmit.
  destruct (truthy (VStr (company (form m)))) eqn:E1;
    destruct (truthy (VStr (headline (form m)))) eqn:E2;
    destruct (truthy (VStr (content (form m)))) eqn:E3; simpl; try reflexivity.
  exfalso. apply H. unfold complete. now rewrite <- !filled.
Qed.

Lemma complete_dec d : complete d \/ ~ complete d.
Proof.
  unfold complete.
  destruct (String.eqb_spec (company d) ""); [right; tauto|].
  destruct (String.eqb_spec (headline d) ""); [right; tauto|].
  destruct (String.eqb_spec (content d) ""); [right; tauto|].
  now left.
Qed.

Lemma modal_run_snoc m es e :
  modal_run m (es ++ [e]) = modal_step (modal_run m es) e.
Proof. unfold modal_run. now rewrite fold_left_app. Qed.

Lemma sent_modal_step m e :
  sent (modal_step m e) = sent m \/
  (complete (form m) /\ isPending m = false /\
   sent (modal_step m e) = sent m ++ [addNewsUpdate (form m)]).
Proof.
  destruct e; simpl; try (now left).
  - destruct (isPending m) eqn:P; [now left|].
    destruct (complete_dec (form m)) as [H|H].
    + right. rewrite (handleSubmit_complete m H). auto.
    + left. now rewrite (handleSubmit_incomplete m H).
  - unfold settle. destruct (isPending m), ok; now left.
Qed.

(** X16. The Add News form.  [handleSubmit] posts the form data, as it is,
    to /news exactly when company, headline and content are all non-empty
    (source and severity are not looked at, and nothing is trimmed);
    otherwise it shows one error toast and posts nothing.  After any
    sequence of edits, presses on Add News and settlements, every request
    posted went to /news with those three fields non-empty; and while a
    request is pending a press on the button does nothing. *)
Theorem add_news_requires_three_fields :
  (forall m : modal,
      complete (form m) ->
      sent (handleSubmit m) = sent m ++ [ {| url := "/news"; body := form m |} ] /\
      isPending (handleSubmit m) = true /\ toasts (handleSubmit m) = toasts m) /\
  (forall m : modal,
      ~ complete (form m) ->
      sent (handleSubmit m) = sent m /\ isPending (handleSubmit m) = isPending m /\
      toasts (handleSubmit m)
      = toasts m ++ [ToastError (VStr "Please fill in all required fields")]) /\
  (forall es : list modal_event,
      Forall (fun r => url r = "/news" /\ complete (body r))
        (sent (modal_run initial_modal es))) /\
  (forall m : modal, isPending m = true -> modal_step m ClickAdd = m).
Proof.
  split; [|split; [|split]].
  - intros m H. rewrite (handleSubmit_complete m H). repeat split.
  - intros m H. rewrite (handleSubmit_incomplete m H). repeat split.
  - intros es. induction es as [|e es IH] using rev_ind; [constructor|].
    rewrite modal_run_snoc.
    destruct (sent_modal_step (modal_run initial_modal es) e)
      as [->|(Hc & _ & ->)]; [exact IH|].
    apply Forall_app. split; [exact IH|]. constructor; [|constructor].
    split; [reflexivity|exact Hc].
  - intros m H. simpl. now rewrite H.
Qed.

Lemma add_news_requires_three_fields_witness :
  let m := modal_run initial_modal
             [Change FCompany "TechCorp"; Change FHeadline " "; Change FContent "x"] in
  (sent (handleSubmit m)
   = sent m ++ [ {| url := "/news";
                    body := mkFormData "TechCorp" " " "x" "Manual Entry" "MEDIUM" |} ] /\
   isPending (handleSubmit m) = true /\ toasts (handleSubmit m) = toasts m) /\
  (sent (handleSubmit initial_modal) = sent initial_modal /\
   isPending (handleSubmit initial_modal) = isPending initial_modal /\
   toasts (handleSubmit initial_modal)
   = toasts initial_modal ++ [ToastError (VStr "Please fill in all required fields")]) /\
  modal_step (handleSubmit m) ClickAdd = handleSubmit m.
Proof.
  split; [|split].
  - apply (proj1 add_news_requires_three_fields
             (modal_run initial_modal
                [Change FCompany "TechCorp"; Change FHeadline " "; Change FContent "x"])).
    repeat split; discriminate.
  - apply (proj1 (proj2 add_news_requires_three_fields) initial_modal).
    intros (H & _). now apply H.
  - apply (proj2 (proj2 (proj2 add_news_requires_three_fields))).
    reflexivity.
Defined.

End NewsFacts.

(** ** Settings and CompanyDetail *)

Module StatusFacts.
Import JS.

Lemma status_row health key :
  let s := Settings.service_status health key in
  (s, Settings.getStatusClass s) = ("operational", "status-operational") \/
  (s, Settings.getStatusClass s) = ("degraded", "status-degraded").
Proof.
  unfold Settings.service_status.
  destruct health as [[services|]|]; simpl; [|now right|now right].
  destruct (truthy (get services key)); [now left|now right].
Qed.

(** X17. The system status rows.  Whatever the health response, there are
    three rows, each either 'operational' with class status-operational or
    'degraded' with class status-degraded: no row is ever shown as down.
    Without a response, or with a response without [services], all three
    are degraded. *)
Theorem system_status_never_down (health : option (option (gmap string value))) :
  length (Settings.SystemStatus health) = 3%nat /\
  Forall (fun row =>
            row = ("operational", "status-operational") \/
            row = ("degraded", "status-degraded"))
    (Settings.SystemStatus health) /\
  (health = None \/ health = Some None ->
   Settings.SystemStatus health
   = repeat ("degraded", "status-degraded") 3).
Proof.
  split; [reflexivity|]. split.
  - unfold Settings.SystemStatus, Settings.service_keys.
    simpl. repeat (apply Forall_cons; split; [apply status_row|]).
    apply Forall_nil. exact I.
  - intros [->| ->]; reflexivity.
Qed.

Lemma system_status_never_down_witness :
  Settings.SystemStatus None = repeat ("degraded", "status-degraded") 3.
Proof.
  apply (proj2 (proj2 (system_status_never_down None))). now left.
Defined.

(** X18. The header of a company page, for [String.prototype.toUpperCase]
    as [up].  With a falsy level the risk label reads 'NONE' and the dot is
    green; the header then shows nothing, except for the number 0, which is
    printed.  A dot that is not green means the level is exactly 'HIGH',
    'MEDIUM' or 'LOW'; the badge is then rendered, with that text and not
    gray when the level is its own upper-case form.  For every non-empty
    string level whose upper-case form is not empty the badge is rendered
    with that form as its text. *)
Theorem company_header_consistent (up : string -> string) (level : value) :
  (truthy level = false ->
   CompanyDetail.risk_label level = VStr "NONE" /\
   CompanyDetail.risk_colour level = "#16a34a" /\
   CompanyDetail.header_badge up level
   = match level with
     | VNum q => CompanyDetail.SlotNumber q
     | _ => CompanyDetail.SlotNothing
     end) /\
  (CompanyDetail.risk_colour level <> "#16a34a" ->
   exists s, level = VStr s /\ In s ["HIGH"; "MEDIUM"; "LOW"] /\
     (up s = s ->
      exists b, CompanyDetail.header_badge up level
                = CompanyDetail.SlotBadge (Normal b) /\
        ContradictionBadge.label b = s /\
        ContradictionBadge.className b <> "badge badge-gray")) /\
  (forall s, level = VStr s -> s <> "" -> up s <> "" ->
   exists b, CompanyDetail.header_badge up level
             = CompanyDetail.SlotBadge (Normal b) /\
     ContradictionBadge.label b = up s).
Proof.
  split; [|split].
  - intros H. unfold CompanyDetail.header_badge, CompanyDetail.risk_label.
    rewrite H. repeat split.
    destruct level as [| | | |s| |]; try reflexivity; try discriminate.
    simpl in H. apply Bool.negb_false_iff, String.eqb_eq in H. now subst.
  - unfold CompanyDetail.risk_colour, CompanyDetail.header_badge.
    destruct (strict_eq level (VStr "HIGH")) eqn:E1;
      [apply Dispatch.strict_eq_str in E1; subst; intros _;
       exists "HIGH"; repeat split; [simpl; auto|];
       intros U; unfold ContradictionBadge.ContradictionBadge,
         ContradictionBadge.getIcon, ContradictionBadge.getBadgeClass,
         ContradictionBadge.label_of; simpl; rewrite U; simpl;
       eexists; repeat split; discriminate|].
    destruct (strict_eq level (VStr "MEDIUM")) eqn:E2;
      [apply Dispatch.strict_eq_str in E2; subst; intros _;
       exists "MEDIUM"; repeat split; [simpl; auto|];
       intros U; unfold ContradictionBadge.ContradictionBadge,
         ContradictionBadge.getIcon, ContradictionBadge.getBadgeClass,
         ContradictionBadge.label_of; simpl; rewrite U; simpl;
       eexists; repeat split; discriminate|].
    destruct (strict_eq level (VStr "LOW")) eqn:E3;
      [apply Dispatch.strict_eq_str in E3; subst; intros _;
       exists "LOW"; repeat split; [simpl; auto|];
       intros U; unfold ContradictionBadge.ContradictionBadge,
         ContradictionBadge.getIcon, ContradictionBadge.getBadgeClass,
         ContradictionBadge.label_of; simpl; rewrite U; simpl;
       eexists; repeat split; discriminate|].
    intros H. now contradiction H.
  - intros s -> Hs Hu. unfold CompanyDetail.header_badge.
    assert (T : truthy (VStr s) = true) by now apply AnalysisForm.company_truthy.
    rewrite T.
    destruct (ContradictionBadge.recognized up (VStr s)) eqn:R.
    + unfold ContradictionBadge.ContradictionBadge, ContradictionBadge.getIcon,
        ContradictionBadge.getBadgeClass, ContradictionBadge.label_of. simpl.
      assert (U : negb (String.eqb (up s) "") = true)
        by now apply Bool.negb_true_iff, String.eqb_neq.
      rewrite U. case_ifs; eexists; split; reflexivity.
    + rewrite (Badge.badge_unrecognized up s _ R Hu).
      eexists. split; reflexivity.
Qed.

Lemma company_header_consistent_witness :
  (CompanyDetail.risk_label (VNum 0) = VStr "NONE" /\
   CompanyDetail.risk_colour (VNum 0) = "#16a34a" /\
   CompanyDetail.header_badge toUpperCase_ascii (VNum 0) = CompanyDetail.SlotNumber 0) /\
  (exists s, VStr "MEDIUM" = VStr s /\ In s ["HIGH"; "MEDIUM"; "LOW"] /\
     (toUpperCase_ascii s = s ->
      exists b, CompanyDetail.header_badge toUpperCase_ascii (VStr "MEDIUM")
                = CompanyDetail.SlotBadge (Normal b) /\
        ContradictionBadge.label b = s /\
        ContradictionBadge.className b <> "badge badge-gray")) /\
  (exists b, CompanyDetail.header_badge toUpperCase_ascii (VStr "high")
             = CompanyDetail.SlotBadge (Normal b) /\
     ContradictionBadge.label b = toUpperCase_ascii "high").
Proof.
  split; [|split].
  - apply (proj1 (company_header_consistent toUpperCase_ascii (VNum 0))). reflexivity.
  - apply (proj1 (proj2 (company_header_consistent toUpperCase_ascii (VStr "MEDIUM")))).
    discriminate.
  - apply (proj2 (proj2 (company_header_consistent toUpperCase_ascii (VStr "high")))
             "high"); [reflexivity|discriminate|discriminate].
Defined.

End StatusFacts.

(** ** More on the analysis form *)

Module AnalysisFacts.
Import JS Analysis AnalysisPanel.

(** X19. When the one request on the wire settles, either way, the page
    stops pending, nothing is left on the wire, nothing new is sent, the
    form keeps its company and query, and the submit button is enabled again
    exactly when a company is selected.  A response replaces the result
    shown and shows the success toast; a rejection keeps the result that
    was shown and shows its detail, or 'Analysis failed' without one. *)
Theorem settlement_reenables_form (es : list ui_event) (i : nat)
    (r : Api.request) (s : settlement) :
  let p := ui_run initial es in
  inflight p = [(i, r)] ->
  let p' := ui_step p (Settle i s) in
  inflight p' = [] /\ isPending p' = false /\
  submit_disabled p' = negb (truthy (VStr (selectedCompany p))) /\
  sent p' = sent p /\ selectedCompany p' = selectedCompany p /\
  query p' = query p /\
  match s with
  | Resolved d =>
      analysisResult p' = Some d /\
      toasts p' = toasts p ++ [ToastSuccess "Analysis completed successfully!"]
  | Rejected d =>
      analysisResult p' = analysisResult p /\
      toasts p' = toasts p
                  ++ [ToastError (if truthy d then d else VStr "Analysis failed")]
  end.
Proof.
  intros p Hw. pose proof (AnalysisForm.wire_ui_run es) as H. fold p in H.
  destruct H as [[H _]|(j & r' & H & Hpend & Hcur)]; [congruence|].
  rewrite Hw in H. injection H as <- <-.
  simpl. unfold settle, submit_disabled. rewrite Hw, Hcur. simpl.
  rewrite Nat.eqb_refl. simpl.
  destruct s; simpl; rewrite Bool.orb_false_r; repeat split.
Qed.

Lemma settlement_reenables_form_witness :
  let p := ui_run initial [ChangeCompany "TechCorp"; ClickSubmit] in
  let p' := ui_step p (Settle 0 (Rejected VUndefined)) in
  inflight p' = [] /\ isPending p' = false /\
  submit_disabled p' = negb (truthy (VStr (selectedCompany p))) /\
  sent p' = sent p /\ selectedCompany p' = selectedCompany p /\
  query p' = query p /\
  analysisResult p' = analysisResult p /\
  toasts p' = toasts p ++ [ToastError (VStr "Analysis failed")].
Proof.
  apply (settlement_reenables_form [ChangeCompany "TechCorp"; ClickSubmit] 0%nat
           (analyze_request (setSelectedCompany "TechCorp" initial))
           (Rejected VUndefined)).
  reflexivity.
Defined.

Lemma sent_grows p e : exists more, sent (ui_step p e) = sent p ++ more /\
  (length more <= if is_click e then 1 else 0)%nat.
Proof.
  destruct (AnalysisForm.sent_ui_step p e) as [H|(-> & _ & H)].
  - exists []. rewrite app_nil_r. split; [exact H|]. simpl. lia.
  - eexists. split; [exact H|]. simpl. lia.
Qed.

Lemma sent_run_grows es : forall p,
  exists more, sent (ui_run p es) = sent p ++ more /\
               (length more <= length (List.filter is_click es))%nat.
Proof.
  unfold ui_run. induction es as [|e es IH]; intros p; simpl.
  - exists []. now rewrite app_nil_r.
  - destruct (sent_grows p e) as (m1 & E1 & L1).
    destruct (IH (ui_step p e)) as (m2 & E2 & L2).
    exists (m1 ++ m2). rewrite E2, E1, <- app_assoc.
    split; [reflexivity|]. rewrite length_app.
    destruct (is_click e); simpl in *; lia.
Qed.

(** X20. The page sends requests only in answer to presses on the submit
    button, at most one per press, and never takes one back: after any
    further events the requests sent so far are still the first ones sent,
    and their number has grown by at most the number of presses. *)
Theorem requests_follow_clicks (p : page) (es : list ui_event) :
  exists more : list Api.request,
    sent (ui_run p es) = sent p ++ more /\
    (length more <= length (List.filter is_click es))%nat.
Proof. apply sent_run_grows. Qed.

(** *** [trim] once more *)

Lemma strip_clean t1 t2 t3 l :
  leads t1 t2 t3 l = false -> strip t1 t2 t3 l = l.
Proof.
  destruct l as [|a [|b [|c r]]]; simpl; try reflexivity.
  - rewrite Bool.orb_false_r. now intros ->.
  - rewrite Bool.orb_false_r. intros H.
    apply Bool.orb_false_iff in H as [-> ->]. reflexivity.
  - intros H. apply Bool.orb_false_iff in H as [-> H].
    apply Bool.orb_false_iff in H as [-> ->]. reflexivity.
Qed.

(** No white space character is the start of another one. *)
Lemma is_space2_not_1 a b : is_space2 a b = true -> is_space a = false.
Proof.
  unfold is_space2, is_space. intros H.
  apply andb_prop in H as [H _]. apply Nat.eqb_eq in H. now rewrite H.
Qed.

Lemma is_space3_lead a b c :
  is_space3 a b c = true ->
  nat_of_ascii a = 225%nat \/ nat_of_ascii a = 226%nat \/
  nat_of_ascii a = 227%nat \/ nat_of_ascii a = 239%nat.
Proof.
  unfold is_space3.
  destruct (Nat.eqb_spec (nat_of_ascii a) 225); [auto|].
  destruct (Nat.eqb_spec (nat_of_ascii a) 226); [auto|].
  destruct (Nat.eqb_spec (nat_of_ascii a) 227); [auto|].
  destruct (Nat.eqb_spec (nat_of_ascii a) 239); [auto|].
  simpl. discriminate.
Qed.

Lemma is_space3_not_1_2 a b c :
  is_space3 a b c = true -> is_space a = false /\ is_space2 a b = false.
Proof.
  intros H. apply is_space3_lead in H.
  unfold is_space, is_space2.
  destruct H as [-> |[-> |[-> | ->]]]; split; reflexivity.
Qed.

Lemma trimStart_white l : white l -> trimStart_chars l = [].
Proof.
  unfold white, trimStart_chars.
  induction 1 as [|a r H _ IH|a b r H _ IH|a b c r H _ IH]; simpl.
  - reflexivity.
  - now rewrite H.
  - now rewrite (is_space2_not_1 a b H), H.
  - destruct (is_space3_not_1_2 a b c H) as [-> ->]. now rewrite H.
Qed.

Lemma trimStart_clean l : starts_clean l -> trimStart_chars l = l.
Proof. apply strip_clean. Qed.

Lemma trimEnd_clean l : ends_clean l -> trimEnd_chars l = l.
Proof.
  unfold ends_clean, trimEnd_chars. intros H.
  rewrite strip_clean by exact H. apply rev_involutive.
Qed.

Lemma trim_clean s :
  starts_clean (list_ascii_of_string s) -> ends_clean (list_ascii_of_string s) ->
  trim s = s.
Proof.
  intros Hs He. unfold trim.
  rewrite trimStart_clean by exact Hs. rewrite trimEnd_clean by exact He.
  apply string_of_list_ascii_of_string.
Qed.

Lemma analyze_request_clean p : clean_query (analyze_request p).
Proof.
  unfold clean_query, query_chars, analyze_request. simpl.
  destruct (AnalysisForm.trim_spec (query p)) as (pre & post & _ & _ & _ & Hs & He).
  now split.
Qed.

(** X21. Trimming.  Trimming twice is trimming once; a query made of white
    space characters only is sent as the empty string; a query without a
    white space character at either end is sent as it is; and every request
    the page has sent carries a query without white space at either end. *)
Theorem query_is_sent_trimmed :
  (forall s : string, trim (trim s) = trim s) /\
  (forall s : string, white (list_ascii_of_string s) -> trim s = "") /\
  (forall s : string,
      starts_clean (list_ascii_of_string s) -> ends_clean (list_ascii_of_string s) ->
      trim s = s) /\
  (forall es : list ui_event, Forall clean_query (sent (ui_run initial es))).
Proof.
  split; [|split; [|split]].
  - intros s.
    destruct (AnalysisForm.trim_spec s) as (pre & post & _ & _ & _ & Hs & He).
    now apply trim_clean.
  - intros s H. unfold trim. now rewrite (trimStart_white _ H).
  - apply trim_clean.
  - intros es. apply AnalysisForm.sent_ui_run.
    intros p _. apply analyze_request_clean.
Qed.

Lemma query_is_sent_trimmed_witness :
  trim (String (ascii_of_nat 194) (String (ascii_of_nat 160) " ")) = "" /\
  trim "supply chain" = "supply chain".
Proof.
  split.
  - apply (proj1 (proj2 query_is_sent_trimmed)
             (String (ascii_of_nat 194) (String (ascii_of_nat 160) " "))).
    apply run_2; [reflexivity|]. apply run_1; [reflexivity|]. apply run_nil.
  - apply (proj1 (proj2 (proj2 query_is_sent_trimmed)) "supply chain").
    + vm_compute. reflexivity.
    + vm_compute. reflexivity.
Defined.

End AnalysisFacts.
